(** * run-ios: device selection, build and deployment

    A shallow embedding of
    [packages/platform-ios/src/commands/runIOS/index.js].

    JavaScript strings are sequences of UTF-16 code units; they are
    modelled as lists of [N].  The command's side effects (log lines and
    subprocess invocations) are recorded in a trace, and an exception or a
    rejected promise is a [Throw] completion. *)

From Stdlib Require Import List NArith ZArith Bool Lia.
From Stdlib Require Import Strings.String Strings.Ascii Numbers.DecimalString.
Import ListNotations.
Local Open Scope list_scope.

(* ================================================================= *)
(** ** Strings *)

Module Js.

Definition jsstring : Type := list N.

(** A source-level string literal (ASCII text). *)
Definition lit (s : string) : jsstring :=
  List.map N_of_ascii (list_ascii_of_string s).

(** The double quote, U+0022. *)
Definition dquote : N := 34%N.

(** [a === b] on two strings. *)
Fixpoint strict_eq (a b : jsstring) : bool :=
  match a, b with
  | [], [] => true
  | x :: a', y :: b' => N.eqb x y && strict_eq a' b'
  | _, _ => false
  end.

(** [s.startsWith(p)]. *)
Fixpoint startsWith (s p : jsstring) : bool :=
  match p, s with
  | [], _ => true
  | y :: p', x :: s' => N.eqb x y && startsWith s' p'
  | _ :: _, [] => false
  end.

(** [s.includes(sub)]. *)
Fixpoint includes (s sub : jsstring) : bool :=
  startsWith s sub ||
  match s with
  | [] => false
  | _ :: s' => includes s' sub
  end.

(** [String.prototype.toLowerCase], given by its action on the letters
    A-Z.  The other Unicode case mappings are left out: none of them
    yields an ASCII letter other than i and k, so they do not bear on a
    search for an ASCII word without these two letters. *)
Definition lowerUnit (c : N) : N :=
  if (65 <=? c)%N && (c <=? 90)%N then (c + 32)%N else c.

Definition toLowerCase (s : jsstring) : jsstring := List.map lowerUnit s.

(** An exit status inside a template literal: a number or [null]. *)
Definition showInt (z : Z) : jsstring :=
  lit (NilZero.string_of_int (Z.to_int z)).

Definition showExitCode (code : option Z) : jsstring :=
  match code with
  | Some z => showInt z
  | None => lit "null"
  end.

(** A string is falsy exactly when it is empty. *)
Definition truthy (s : jsstring) : bool :=
  match s with [] => false | _ :: _ => true end.

End Js.
Import Js.

(* ================================================================= *)
(** ** Data *)

(** An entry of [parseIOSDevicesList]: [{udid, name, version}]. *)
Record Device := mkDevice {
  name : jsstring;
  udid : jsstring;
  version : jsstring
}.

(** A value of type [?(string | true)], such as [args.device]: absent, a
    string, or [true] when the flag is given without a value. *)
Inductive FlagValue :=
| FlagUndefined
| FlagString (s : jsstring)
| FlagTrue.

(** Truthiness of a flag value and of a [?string]. *)
Definition flagTruthy (f : FlagValue) : bool :=
  match f with
  | FlagUndefined => false
  | FlagString s => truthy s
  | FlagTrue => true
  end.

Definition optTruthy (o : option jsstring) : bool :=
  match o with
  | Some s => truthy s
  | None => false
  end.

(** [`${value}`] *)
Definition showFlag (f : FlagValue) : jsstring :=
  match f with
  | FlagUndefined => lit "undefined"
  | FlagString s => s
  | FlagTrue => lit "true"
  end.

Definition showOpt (o : option jsstring) : jsstring :=
  match o with
  | Some s => s
  | None => lit "undefined"
  end.

(** [x === value] for a string [x]. *)
Definition eqFlag (x : jsstring) (f : FlagValue) : bool :=
  match f with
  | FlagString s => strict_eq x s
  | _ => false
  end.

Definition eqOpt (x : jsstring) (o : option jsstring) : bool :=
  match o with
  | Some s => strict_eq x s
  | None => false
  end.

(* ================================================================= *)
(** ** Effects *)

Inductive Level := Info | Error.

(** What [new CLIError(msg, originalError)] receives, or an exception
    raised by a Node API. *)
Inductive Exn :=
| CLIError (msg : jsstring) (originalError : option jsstring)
| NodeError (descr : jsstring).

Inductive EnvValue :=
| EnvStr (s : jsstring)
| EnvNum (z : Z)
| EnvBool (b : bool)
| EnvUndefined.

Inductive Event :=
| Log (l : Level) (msg : jsstring)
| Chdir (dir : jsstring)
| ExecFileSync (file : jsstring) (args : list jsstring)
| ExecSync (cmd : jsstring)
| SpawnSync (file : jsstring) (args : list jsstring)
| Spawn (file : jsstring) (args : list jsstring)
        (env : list (jsstring * EnvValue))
| StdinWrite          (* a chunk is written to the input of xcpretty *)
| StdinEnd.

Inductive Completion (A : Type) :=
| Normal (a : A)
| Throw (e : Exn).
Arguments Normal {A} a.
Arguments Throw {A} e.

(** A computation: the events it performed, in order, and how it
    completed. *)
Definition M (A : Type) : Type := list Event * Completion A.

Definition ret {A} (a : A) : M A := ([], Normal a).

Definition bind {A B} (m : M A) (f : A -> M B) : M B :=
  match m with
  | (t, Normal a) => let (t', c) := f a in (t ++ t', c)
  | (t, Throw e) => (t, Throw e)
  end.

Definition emit (ev : Event) : M unit := ([ev], Normal tt).

Definition throw {A} (e : Exn) : M A := ([], Throw e).

(** [try { m } catch (_ignored) { }] *)
Definition tryIgnore (m : M unit) : M unit :=
  match m with
  | (t, Normal _) => (t, Normal tt)
  | (t, Throw _) => (t, Normal tt)
  end.

Notation "x <- m ;; k" := (bind m (fun x => k))
  (at level 61, m at next level, right associativity).
Notation "m ;; k" := (bind m (fun _ => k))
  (at level 61, right associativity).

Definition trace {A} (m : M A) : list Event := fst m.
Definition completion {A} (m : M A) : Completion A := snd m.

Definition logger_info (msg : jsstring) : M unit := emit (Log Info msg).
Definition logger_error (msg : jsstring) : M unit := emit (Log Error msg).

(* ================================================================= *)
(** ** Device matching *)

(** [`${simulator.name} (${simulator.version})`] *)
Definition formatName (n v : jsstring) : jsstring :=
  n ++ lit " (" ++ v ++ lit ")".

Definition formattedDeviceName (d : Device) : jsstring :=
  formatName (name d) (version d).

(** The loop [for (let i = n - 1; i >= 0; i--) if (test(devices[i]))
    return devices[i];] followed by [return null].  The index stays below
    [devices.length], so [devices[i]] is always an element. *)
Fixpoint scanDown (test : Device -> bool) (devices : list Device) (n : nat)
  : option Device :=
  match n with
  | O => None
  | S i =>
      match nth_error devices i with
      | Some d => if test d then Some d else scanDown test devices i
      | None => None
      end
  end.

Definition matchingDeviceByUdid (devices : list Device)
           (udid' : option jsstring) : option Device :=
  scanDown (fun d => eqOpt (udid d) udid') devices (List.length devices).

Definition matchingDevice (devices : list Device) (deviceName : FlagValue)
  : M (option Device) :=
  match deviceName, devices with
  | FlagTrue, [d0] =>
      logger_info (lit "Using first available device " ++ name d0
                   ++ lit " due to lack of name supplied.") ;;
      ret (Some d0)
  | _, _ =>
      ret (scanDown
             (fun d => eqFlag (name d) deviceName
                       || eqFlag (formattedDeviceName d) deviceName)
             devices (List.length devices))
  end.

(** [printFoundDevices]: the accumulator loop, index going down. *)
Fixpoint printDown (devices : list Device) (n : nat) (output : jsstring)
  : jsstring :=
  match n with
  | O => output
  | S i =>
      match nth_error devices i with
      | Some d =>
          printDown devices i
            (output ++ name d ++ lit " Udid: " ++ udid d ++ [10%N])
      | None => output
      end
  end.

Definition printFoundDevices (devices : list Device) : jsstring :=
  printDown devices (List.length devices) [].

(* ================================================================= *)
(** ** The product-name pattern *)

(** [LineTerminator] of the regular-expression grammar: the characters
    that [.] refuses and before which [$] holds under the [m] flag. *)
Definition isLineTerminator (c : N) : bool :=
  N.eqb c 10 || N.eqb c 13 || N.eqb c 8232 || N.eqb c 8233.

(** The pattern constructs that
    [/export FULL_PRODUCT_NAME="?(.+).app"?$/m] is made of. *)
Inductive Node :=
| Char (c : N)        (* a literal character *)
| Dot                 (* [.] *)
| OptChar (c : N)     (* [c?], greedy *)
| GroupDotPlus        (* [(.+)], greedy, capturing *)
| EndM.               (* [$] with the [m] flag *)

(** [(.+)] followed by the continuation [k]: the longest run is tried
    first, then each shorter one, down to a single character. *)
Fixpoint dotPlus {R} (k : jsstring -> jsstring -> option R)
         (s acc : jsstring) : option R :=
  match s with
  | [] => None
  | x :: s' =>
      if isLineTerminator x then None
      else match dotPlus k s' (acc ++ [x]) with
           | Some r => Some r
           | None => k s' (acc ++ [x])
           end
  end.

(** Backtracking matcher: [matchNodes r s cap] matches [r] at the head
    of [s] and gives the capture of group 1 on success. *)
Fixpoint matchNodes (r : list Node) (s : jsstring) (cap : option jsstring)
  : option (option jsstring) :=
  match r with
  | [] => Some cap
  | Char c :: r' =>
      match s with
      | x :: s' => if N.eqb x c then matchNodes r' s' cap else None
      | [] => None
      end
  | Dot :: r' =>
      match s with
      | x :: s' => if isLineTerminator x then None else matchNodes r' s' cap
      | [] => None
      end
  | OptChar c :: r' =>
      let taken :=
        match s with
        | x :: s' => if N.eqb x c then matchNodes r' s' cap else None
        | [] => None
        end in
      match taken with
      | Some res => Some res
      | None => matchNodes r' s cap
      end
  | GroupDotPlus :: r' =>
      dotPlus (fun s' g => matchNodes r' s' (Some g)) s []
  | EndM :: r' =>
      match s with
      | [] => matchNodes r' s cap
      | x :: _ => if isLineTerminator x then matchNodes r' s cap else None
      end
  end.

(** [RegExp.prototype.exec] without the [g] and [y] flags: the first
    start position, from the left, at which the pattern matches. *)
Fixpoint exec (r : list Node) (s : jsstring) : option (option jsstring) :=
  match matchNodes r s None with
  | Some res => Some res
  | None =>
      match s with
      | [] => None
      | _ :: s' => exec r s'
      end
  end.

Definition exportPrefix : jsstring := lit "export FULL_PRODUCT_NAME=".

Definition productNamePattern : list Node :=
  List.map Char exportPrefix
  ++ [OptChar dquote; GroupDotPlus; Dot]
  ++ List.map Char (lit "app")
  ++ [OptChar dquote; EndM].

(** [productNameMatch ? productNameMatch[1] : null] *)
Definition getProductName (buildOutput : jsstring) : option jsstring :=
  match exec productNamePattern buildOutput with
  | Some group1 => group1
  | None => None
  end.

(** [getProductName(buildOutput) || scheme] *)
Definition productNameOr (buildOutput scheme : jsstring) : jsstring :=
  match getProductName buildOutput with
  | Some n => if truthy n then n else scheme
  | None => scheme
  end.

(* ================================================================= *)
(** ** Build path *)

Definition getBuildPath (configuration appName : jsstring) (isDevice : bool)
           (scheme : jsstring) : jsstring :=
  let device :=
    if isDevice then lit "iphoneos"
    else if includes (toLowerCase appName) (lit "tvos")
         then lit "appletvsimulator"
         else lit "iphonesimulator" in
  lit "build/" ++ scheme ++ lit "/Build/Products/" ++ configuration
  ++ lit "-" ++ device ++ lit "/" ++ appName ++ lit ".app".

(** The [-derivedDataPath] argument that [buildProject] gives to the
    build tool. *)
Definition derivedDataPath (scheme : jsstring) : jsstring :=
  lit "build/" ++ scheme.

(* ================================================================= *)
(** ** The command's flags and its collaborators *)

(** [FlagsT].  An absent optional flag is [None]. *)
Record FlagsT := mkFlags {
  simulator : jsstring;
  configuration : jsstring;
  scheme : option jsstring;
  projectPath : jsstring;
  device : FlagValue;
  udidFlag : option jsstring;      (* [args.udid] *)
  packager : bool;
  verbose : bool;
  port : Z;
  terminal : option jsstring
}.

(** Result of [findXcodeProject]. *)
Record XcodeProject := mkProject {
  projectName : jsstring;          (* [xcodeProject.name] *)
  isWorkspace : bool
}.

(** Result of [findMatchingSimulator]. *)
Record Simulator := mkSimulator {
  simUdid : jsstring;              (* [selectedSimulator.udid] *)
  simName : jsstring;
  simVersion : jsstring;
  booted : bool
}.

(** The object that [child_process.spawnSync] returns: the exit status
    ([null] when there is none) and [error], set when the child could not
    be spawned or timed out. *)
Record SpawnSyncReturns := mkReturns {
  status : option Z;
  error : option jsstring
}.

(** A [spawnSync] call hands back its result object, or throws. *)
Inductive SpawnSyncOutcome :=
| Returned (r : SpawnSyncReturns)
| Threw (e : Exn).

(** What a child started by [child_process.spawn] does: the chunks it
    writes, in order, and then its [close] event with the exit code
    ([null] when a signal ended it). *)
Inductive Chunk :=
| Stdout (data : jsstring)
| Stderr (data : jsstring).

Record ChildRun := mkChildRun {
  chunks : list Chunk;
  exitCode : option Z
}.

(** Everything outside this file that a run consults: the sibling modules
    [findXcodeProject], [parseIOSDevicesList] and [findMatchingSimulator],
    Node's [fs], [process], [path] and [JSON], and the answers of the
    subprocesses.  [process.chdir] and [fs.readdirSync] return or throw. *)
Record World := mkWorld {
  Inventory : Type;
  fs_existsSync : jsstring -> bool;
  process_chdir : jsstring -> Completion unit;
  fs_readdirSync : jsstring -> Completion (list jsstring);
  path_basename : jsstring -> jsstring -> jsstring;
  path_extname : jsstring -> jsstring;
  path_join : jsstring -> jsstring -> jsstring;
  findXcodeProject : list jsstring -> option XcodeProject;
  parseIOSDevicesList : jsstring -> list Device;
  JSON_parse : jsstring -> Completion Inventory;
  findMatchingSimulator : Inventory -> jsstring -> option Simulator;
  execFileSync : jsstring -> list jsstring -> Completion jsstring;
  execSync : jsstring -> Completion jsstring;
  spawnSync : jsstring -> list jsstring -> SpawnSyncOutcome;
  spawn : jsstring -> list jsstring -> list (jsstring * EnvValue) -> ChildRun
}.

Definition do_chdir (w : World) (dir : jsstring) : M unit :=
  emit (Chdir dir) ;; ([], process_chdir w dir).

Definition do_readdirSync (w : World) (dir : jsstring)
  : M (list jsstring) :=
  ([], fs_readdirSync w dir).

Definition do_execFileSync (w : World) (file : jsstring)
           (args : list jsstring) : M jsstring :=
  emit (ExecFileSync file args) ;; ([], execFileSync w file args).

Definition do_execSync (w : World) (cmd : jsstring) : M jsstring :=
  emit (ExecSync cmd) ;; ([], execSync w cmd).

Definition do_spawnSync (w : World) (file : jsstring)
           (args : list jsstring) : M SpawnSyncReturns :=
  emit (SpawnSync file args) ;;
  match spawnSync w file args with
  | Returned r => ret r
  | Threw e => throw e
  end.

(** [WhiteSpace] and [LineTerminator] code units, which [trim] strips. *)
Definition isStrWhiteSpace (c : N) : bool :=
  ((9 <=? c) && (c <=? 13) || N.eqb c 32 || N.eqb c 160 || N.eqb c 5760
   || (8192 <=? c) && (c <=? 8202) || N.eqb c 8232 || N.eqb c 8233
   || N.eqb c 8239 || N.eqb c 8287 || N.eqb c 12288 || N.eqb c 65279)%N.

Fixpoint trimStart (s : jsstring) : jsstring :=
  match s with
  | c :: s' => if isStrWhiteSpace c then trimStart s' else s
  | [] => []
  end.

Definition trim (s : jsstring) : jsstring :=
  rev (trimStart (rev (trimStart s))).

(** [xs.join(' ')] *)
Fixpoint joinSpace (xs : list jsstring) : jsstring :=
  match xs with
  | [] => []
  | [x] => x
  | x :: xs' => x ++ lit " " ++ joinSpace xs'
  end.

(* ================================================================= *)
(** ** Building *)

Definition optStr (o : option jsstring) : EnvValue :=
  match o with
  | Some s => EnvStr s
  | None => EnvUndefined
  end.

(** [getProcessOptions]: the entries laid over [process.env]. *)
Definition getProcessOptions (args : FlagsT) : list (jsstring * EnvValue) :=
  if packager args then
    [(lit "RCT_TERMINAL", optStr (terminal args));
     (lit "RCT_METRO_PORT", EnvNum (port args))]
  else
    [(lit "RCT_TERMINAL", optStr (terminal args));
     (lit "RCT_NO_LAUNCH_PACKAGER", EnvBool true)].

Definition xcprettyAvailable (w : World) : M bool :=
  match do_execSync w (lit "xcpretty --version") with
  | (t, Normal _) => (t, Normal true)
  | (t, Throw _) => (t, Normal false)
  end.

(** The two [data] handlers of [buildProject], run over the chunks in the
    order they arrive; the state is [(buildOutput, errorOutput)].  A chunk
    stands here by its text, [data.toString()], which is what the log and
    the two accumulators take; xcpretty is handed the chunk as it came,
    and the trace records that write without its bytes. *)
Fixpoint onData (xcpretty : bool) (cs : list Chunk)
         (acc : jsstring * jsstring) : M (jsstring * jsstring) :=
  match cs with
  | [] => ret acc
  | Stdout data :: cs' =>
      (if xcpretty then emit StdinWrite else logger_info data) ;;
      onData xcpretty cs' (fst acc ++ data, snd acc)
  | Stderr data :: cs' =>
      onData xcpretty cs' (fst acc, snd acc ++ data)
  end.

Definition buildFailedMessage (code : option Z) (project : XcodeProject)
  : jsstring :=
  lit "
            Failed to build iOS project.

            We ran " ++ [dquote] ++ lit "xcodebuild" ++ [dquote]
  ++ lit " command but it exited with error code " ++ showExitCode code
  ++ lit ". To debug build
            logs further, consider building your app with Xcode.app, by opening
            " ++ projectName project ++ lit ".
          ".

(** [code !== 0] *)
Definition nonZero (code : option Z) : bool :=
  match code with
  | Some z => negb (Z.eqb z 0)
  | None => true
  end.

(** The [close] handler: rejects or resolves the promise. *)
Definition onClose (xcpretty : bool) (project : XcodeProject)
           (scheme : jsstring) (code : option Z)
           (buildOutput errorOutput : jsstring) : M jsstring :=
  (if xcpretty then emit StdinEnd else ret tt) ;;
  if nonZero code then
    throw (CLIError (buildFailedMessage code project) (Some errorOutput))
  else
    ret (productNameOr buildOutput scheme).

Definition xcodebuildArgs (project : XcodeProject) (udid scheme : jsstring)
           (args : FlagsT) : list jsstring :=
  [ if isWorkspace project then lit "-workspace" else lit "-project";
    projectName project;
    lit "-configuration";
    configuration args;
    lit "-scheme";
    scheme;
    lit "-destination";
    lit "id=" ++ udid;
    lit "-derivedDataPath";
    derivedDataPath scheme ].

Definition buildProject (w : World) (project : XcodeProject)
           (udid scheme : jsstring) (args : FlagsT) : M jsstring :=
  let bargs := xcodebuildArgs project udid scheme args in
  logger_info (lit "Building using " ++ [dquote] ++ lit "xcodebuild "
               ++ joinSpace bargs ++ [dquote]) ;;
  xcpretty <-
    (if negb (verbose args) then
       available <- xcprettyAvailable w ;;
       if available then emit (Spawn (lit "xcpretty") [] []) ;; ret true
       else ret false
     else ret false) ;;
  emit (Spawn (lit "xcodebuild") bargs (getProcessOptions args)) ;;
  let child := spawn w (lit "xcodebuild") bargs (getProcessOptions args) in
  out <- onData xcpretty (chunks child) ([], []) ;;
  onClose xcpretty project scheme (exitCode child) (fst out) (snd out).

(* ================================================================= *)
(** ** Running on a simulator and on a device *)

Definition bootArgs (sim : Simulator) : list jsstring :=
  [lit "instruments"; lit "-w"; simUdid sim].

Definition bootSimulator (w : World) (sim : Simulator) : M unit :=
  let simulatorFullName := formatName (simName sim) (simVersion sim) in
  logger_info (lit "Launching " ++ simulatorFullName ++ lit "...") ;;
  tryIgnore (do_spawnSync w (lit "xcrun") (bootArgs sim) ;; ret tt).

Definition simctlListArgs : list jsstring :=
  [lit "simctl"; lit "list"; lit "--json"; lit "devices"].

Definition installArgs (sim : Simulator) (appPath : jsstring)
  : list jsstring :=
  [lit "simctl"; lit "install"; simUdid sim; appPath].

Definition launchArgs (sim : Simulator) (bundleID : jsstring)
  : list jsstring :=
  [lit "simctl"; lit "launch"; simUdid sim; bundleID].

Definition plistArgs (w : World) (appPath : jsstring) : list jsstring :=
  [lit "-c"; lit "Print:CFBundleIdentifier";
   path_join w appPath (lit "Info.plist")].

(** The [try] block around the inventory query: any exception of the
    query or of [JSON.parse] becomes the same [CLIError]. *)
Definition readSimulators (w : World) : M (Inventory w) :=
  match do_execFileSync w (lit "xcrun") simctlListArgs with
  | (t, Normal out) =>
      match JSON_parse w out with
      | Normal v => (t, Normal v)
      | Throw _ =>
          (t, Throw (CLIError
                       (lit "Could not parse the simulator list output")
                       None))
      end
  | (t, Throw _) =>
      (t, Throw (CLIError (lit "Could not parse the simulator list output")
                          None))
  end.

(** [runOnSimulator], lines 104 to 144: the inventory is read, the
    simulator is chosen and Simulator.app is opened on it. *)
Definition selectSimulator (w : World) (args : FlagsT) : M Simulator :=
  simulators <- readSimulators w ;;
  match findMatchingSimulator w simulators (simulator args) with
  | None =>
      throw (CLIError (lit "Could not find " ++ simulator args
                       ++ lit " simulator") None)
  | Some selectedSimulator =>
      dir <- do_execFileSync w (lit "xcode-select") [lit "-p"] ;;
      let activeDeveloperDir := trim dir in
      do_execFileSync w (lit "open")
        [activeDeveloperDir ++ lit "/Applications/Simulator.app";
         lit "--args"; lit "-CurrentDeviceUDID";
         simUdid selectedSimulator] ;;
      ret selectedSimulator
  end.

(** [runOnSimulator], lines 157 to 186: what follows the build. *)
Definition installAndLaunch (w : World) (selectedSimulator : Simulator)
           (appName scheme : jsstring) (args : FlagsT) : M unit :=
  let appPath := getBuildPath (configuration args) appName false scheme in
  logger_info (lit "Installing " ++ appPath) ;;
  do_spawnSync w (lit "xcrun") (installArgs selectedSimulator appPath) ;;
  plist <- do_execFileSync w (lit "/usr/libexec/PlistBuddy")
             (plistArgs w appPath) ;;
  let bundleID := trim plist in
  logger_info (lit "Launching " ++ bundleID) ;;
  do_spawnSync w (lit "xcrun") (launchArgs selectedSimulator bundleID) ;;
  ret tt.

Definition runOnSimulator (w : World) (project : XcodeProject)
           (scheme : jsstring) (args : FlagsT) : M unit :=
  selectedSimulator <- selectSimulator w args ;;
  (if negb (booted selectedSimulator)
   then bootSimulator w selectedSimulator
   else ret tt) ;;
  appName <- buildProject w project (simUdid selectedSimulator) scheme args ;;
  installAndLaunch w selectedSimulator appName scheme args.

Definition iosDeployInstallArgs (selectedDevice : Device)
           (appPath : jsstring) : list jsstring :=
  [lit "--bundle"; appPath; lit "--id"; udid selectedDevice;
   lit "--justlaunch"].

Definition installationFailed : jsstring :=
  lit "** INSTALLATION FAILED **
Make sure you have ios-deploy installed globally.
(e.g " ++ [dquote] ++ lit "npm install -g ios-deploy" ++ [dquote] ++ lit ")".

(** [runOnDevice], lines 197 to 219: what follows the build. *)
Definition installOnDevice (w : World) (selectedDevice : Device)
           (appName scheme : jsstring) (args : FlagsT) : M unit :=
  let deployArgs :=
    iosDeployInstallArgs selectedDevice
      (getBuildPath (configuration args) appName true scheme) in
  logger_info (lit "Installing and launching your app on "
               ++ name selectedDevice ++ lit "...") ;;
  iosDeployOutput <- do_spawnSync w (lit "ios-deploy") deployArgs ;;
  match error iosDeployOutput with
  | Some _ => logger_error installationFailed
  | None => logger_info (lit "** INSTALLATION SUCCEEDED **")
  end.

Definition runOnDevice (w : World) (selectedDevice : Device)
           (scheme : jsstring) (project : XcodeProject) (args : FlagsT)
  : M unit :=
  appName <- buildProject w project (udid selectedDevice) scheme args ;;
  installOnDevice w selectedDevice appName scheme args.

(* ================================================================= *)
(** ** The command *)

Definition notFoundMessage (kind : jsstring) (wanted : jsstring)
           (devices : list Device) : jsstring :=
  lit "Could not find device with the " ++ kind ++ lit ": " ++ [dquote]
  ++ wanted ++ [dquote] ++ lit ". Choose one of the following:" ++ [10%N]
  ++ printFoundDevices devices.

(** [devices && devices.length > 0] *)
Definition nonEmpty (devices : list Device) : bool :=
  Nat.ltb 0 (List.length devices).

(** The choice of line 77: by name when [device] is truthy, by udid
    otherwise. *)
Definition selectDevice (devices : list Device) (device : FlagValue)
           (udid : option jsstring) : M (option Device) :=
  if flagTruthy device then matchingDevice devices device
  else ret (matchingDeviceByUdid devices udid).

(** The message of lines 85 to 97. *)
Definition notFoundReport (devices : list Device) (device : FlagValue)
           (udid : option jsstring) : jsstring :=
  if nonEmpty devices then
    if flagTruthy device
    then notFoundMessage (lit "name") (showFlag device) devices
    else notFoundMessage (lit "udid") (showOpt udid) devices
  else
    lit "No iOS devices connected.".

Definition runIOS (w : World) (args : FlagsT) : M unit :=
  if negb (fs_existsSync w (projectPath args)) then
    throw (CLIError
             (lit "iOS project folder not found. Are you sure this is a React Native project?")
             None)
  else
    do_chdir w (projectPath args) ;;
    files <- do_readdirSync w (lit ".") ;;
    match findXcodeProject w files with
    | None =>
        throw (CLIError
                 (lit "Could not find Xcode project files in " ++ [dquote]
                  ++ projectPath args ++ [dquote] ++ lit " folder")
                 None)
    | Some xcodeProject =>
        let inferredSchemeName :=
          path_basename w (projectName xcodeProject)
            (path_extname w (projectName xcodeProject)) in
        let scheme :=
          match scheme args with
          | Some s => if truthy s then s else inferredSchemeName
          | None => inferredSchemeName
          end in
        logger_info (lit "Found Xcode "
                     ++ (if isWorkspace xcodeProject then lit "workspace"
                         else lit "project")
                     ++ lit " " ++ projectName xcodeProject) ;;
        listing <- do_execFileSync w (lit "xcrun")
                     [lit "instruments"; lit "-s"] ;;
        let devices := parseIOSDevicesList w listing in
        let device := device args in
        let udid := udidFlag args in
        if flagTruthy device || optTruthy udid then
          selectedDevice <- selectDevice devices device udid ;;
          match selectedDevice with
          | Some selected =>
              runOnDevice w selected scheme xcodeProject args
          | None => logger_error (notFoundReport devices device udid)
          end
        else
          runOnSimulator w xcodeProject scheme args
    end.

(* ================================================================= *)
(** ** Vocabulary of the properties *)

(** [d] is the last element of [l] that passes [test]. *)
Definition LastSuch (test : Device -> bool) (l : list Device) (d : Device)
  : Prop :=
  exists before after,
    l = before ++ d :: after /\ test d = true
    /\ Forall (fun x => test x = false) after.

(** [d] answers to the name [sel]: by its bare name, or by its display
    form, which is the name, a space, and the version in parentheses. *)
Definition NamedBy (sel : jsstring) (d : Device) : Prop :=
  name d = sel \/ name d ++ lit " (" ++ version d ++ lit ")" = sel.

(** The note that [matchingDevice] logs when it picks the only device. *)
Definition implicitNote (d : Device) : Event :=
  Log Info (lit "Using first available device " ++ name d
            ++ lit " due to lack of name supplied.").

Definition iPhone8_12 : Device :=
  mkDevice (lit "iPhone 8") (lit "AAAA-1") (lit "12.0").
Definition iPhone8_13 : Device :=
  mkDevice (lit "iPhone 8") (lit "AAAA-2") (lit "13.0").

(** [c] is the ASCII letter whose lower-case code unit is [l], in either
    case. *)
Definition letterOf (l c : N) : Prop := c = l \/ c = (l - 32)%N.

(** [appName] contains "tvos", case-insensitively. *)
Definition MentionsTvos (appName : jsstring) : Prop :=
  exists pre t v o s post,
    appName = pre ++ [t; v; o; s] ++ post
    /\ letterOf 116 t /\ letterOf 118 v /\ letterOf 111 o /\ letterOf 115 s.

(** [rest] begins at the end of a line: nothing is left of the text, or a
    line terminator comes next. *)
Definition AtLineEnd (rest : jsstring) : Prop :=
  rest = [] \/ exists c r, rest = c :: r /\ isLineTerminator c = true.

(** An optional double quote. *)
Definition OptQuote (q : jsstring) : Prop := q = [] \/ q = [dquote].

Definition NoTerminator (s : jsstring) : Prop :=
  Forall (fun c => isLineTerminator c = false) s.

(** [tail] begins with [name], one more character of the line, [app],
    an optional closing quote, and the end of the line. *)
Definition GroupAt (tail name : jsstring) : Prop :=
  exists c q2 rest,
    tail = name ++ c :: lit "app" ++ q2 ++ rest
    /\ OptQuote q2
    /\ name <> [] /\ NoTerminator name /\ isLineTerminator c = false
    /\ AtLineEnd rest.

(** After [pre], [buildOutput] goes on with the export of
    FULL_PRODUCT_NAME: the literal prefix, an optional opening quote
    [q1], [name], one more character of the line, [app], an optional
    closing quote, and the end of the line. *)
Definition ExportAt (buildOutput pre q1 name : jsstring) : Prop :=
  exists c q2 rest,
    buildOutput
    = pre ++ exportPrefix ++ q1 ++ name ++ c :: lit "app" ++ q2 ++ rest
    /\ OptQuote q1 /\ OptQuote q2
    /\ name <> [] /\ NoTerminator name /\ isLineTerminator c = false
    /\ AtLineEnd rest.

(** The part of the pattern that follows the group. *)
Definition afterGroup : list Node :=
  [Dot] ++ List.map Char (lit "app") ++ [OptChar dquote; EndM].

(** The text that a successful build wrote to its standard output. *)
Fixpoint stdoutText (cs : list Chunk) : jsstring :=
  match cs with
  | [] => []
  | Stdout data :: cs' => data ++ stdoutText cs'
  | Stderr _ :: cs' => stdoutText cs'
  end.

(** The text that a build wrote to its standard error. *)
Fixpoint stderrText (cs : list Chunk) : jsstring :=
  match cs with
  | [] => []
  | Stdout _ :: cs' => stderrText cs'
  | Stderr data :: cs' => data ++ stderrText cs'
  end.

(** [name] is the group of the first match: the match that starts
    leftmost and, at that start, takes the opening quote if a match can
    take it and then the longest group. *)
Definition FirstExport (text name : jsstring) : Prop :=
  exists pre q1,
    ExportAt text pre q1 name
    /\ forall pre' q1' name',
         ExportAt text pre' q1' name' ->
         List.length pre <= List.length pre'
         /\ (List.length pre' = List.length pre ->
             List.length q1' <= List.length q1
             /\ (List.length q1' = List.length q1 ->
                 List.length name' <= List.length name)).

(** The child process that [buildProject] starts. *)
Definition buildChild (w : World) (project : XcodeProject)
           (udid scheme : jsstring) (args : FlagsT) : ChildRun :=
  spawn w (lit "xcodebuild") (xcodebuildArgs project udid scheme args)
        (getProcessOptions args).

(* ================================================================= *)
(** ** A concrete world *)

Definition sampleProject : XcodeProject :=
  mkProject (lit "MyApp.xcodeproj") false.

Definition sampleSimulator : Simulator :=
  mkSimulator (lit "SIM-1") (lit "iPhone X") (lit "12.1") false.

Definition sampleFlags : FlagsT :=
  mkFlags (lit "iPhone X") (lit "Debug") None (lit "ios") FlagUndefined None
          true false 8081 None.

(** The answers of the subprocesses of one run. *)
Record Answers := mkAnswers {
  listed : list Device;            (* [instruments -s], parsed *)
  booting : SpawnSyncOutcome;      (* [instruments -w] *)
  building : ChildRun;             (* [xcodebuild] *)
  installing : SpawnSyncOutcome;   (* [simctl install] *)
  reading : Completion jsstring;   (* [PlistBuddy] *)
  launching : SpawnSyncOutcome;    (* [simctl launch] *)
  deploying : SpawnSyncOutcome     (* [ios-deploy] *)
}.

Definition secondIs (word : jsstring) (args : list jsstring) : bool :=
  match args with
  | _ :: a :: _ => strict_eq a word
  | _ => false
  end.

Definition sampleWorld (a : Answers) : World :=
  mkWorld unit
    (fun _ => true)
    (fun _ => Normal tt)
    (fun _ => Normal [lit "MyApp.xcodeproj"])
    (fun _ _ => lit "MyApp")
    (fun _ => lit ".xcodeproj")
    (fun dir file => dir ++ lit "/" ++ file)
    (fun _ => Some sampleProject)
    (fun _ => listed a)
    (fun _ => Normal tt)
    (fun _ _ => Some sampleSimulator)
    (fun file _ =>
       if strict_eq file (lit "/usr/libexec/PlistBuddy") then reading a
       else Normal (lit "/Applications/Xcode.app/Contents/Developer" ++ [10%N]))
    (fun _ => Throw (NodeError (lit "Command failed: xcpretty --version")))
    (fun file args =>
       if strict_eq file (lit "ios-deploy") then deploying a
       else if secondIs (lit "install") args then installing a
       else if secondIs (lit "launch") args then launching a
       else booting a)
    (fun _ _ _ => building a).

Definition exited (code : Z) : SpawnSyncOutcome :=
  Returned (mkReturns (Some code) None).

Definition goodBuild : ChildRun :=
  mkChildRun
    [Stdout (lit "    export FULL_PRODUCT_NAME=My");
     Stderr (lit "warning: unused");
     Stdout (lit "Product.app" ++ [10%N] ++ lit "** BUILD SUCCEEDED **")]
    (Some 0%Z).

Definition failedBuild : ChildRun :=
  mkChildRun
    [Stdout (lit "CompileC main.m");
     Stderr (lit "error: no such file");
     Stderr (lit " main.m")]
    (Some 65%Z).

Definition goodAnswers : Answers :=
  mkAnswers [] (exited 255) goodBuild (exited 0)
            (Normal (lit "org.example.MyProduct" ++ [10%N]))
            (exited 0) (exited 0).

(** The boot step of [runOnSimulator], lines 146 to 148. *)
Definition bootIfNeeded (w : World) (sim : Simulator) : M unit :=
  if negb (booted sim) then bootSimulator w sim else ret tt.

(** The error of a failed build. *)
Definition buildError (child : ChildRun) (project : XcodeProject) : Exn :=
  CLIError (buildFailedMessage (exitCode child) project)
           (Some (stderrText (chunks child))).

(** Events that start a subprocess synchronously: every install, launch
    and metadata step is one of them. *)
Definition isSyncStep (ev : Event) : bool :=
  match ev with
  | SpawnSync _ _ | ExecFileSync _ _ => true
  | _ => false
  end.

Definition failedAnswers : Answers :=
  mkAnswers [] (exited 255) failedBuild (exited 0)
            (Normal (lit "org.example.MyProduct" ++ [10%N]))
            (exited 0) (exited 0).

(** The failure that the comment in [bootSimulator] names: [instruments]
    exits with 255. *)
Definition knownQuirk : SpawnSyncOutcome := exited 255.

(** A [spawnSync] call failed: it threw, the child could not be spawned,
    or the child did not exit with 0. *)
Definition Failed (o : SpawnSyncOutcome) : Prop :=
  match o with
  | Threw _ => True
  | Returned r => status r <> Some 0%Z \/ error r <> None
  end.

(** A computation surfaces an error: it throws, or it logs one. *)
Definition Surfaces {A} (m : M A) : Prop :=
  (exists e, completion m = Throw e)
  \/ exists msg, In (Log Error msg) (trace m).

(** [xcrun] cannot be started when the simulator is to be booted. *)
Definition spawnError : SpawnSyncOutcome :=
  Returned (mkReturns None (Some (lit "spawnSync xcrun ENOENT"))).

Definition thrownBoot : Answers :=
  mkAnswers [] (Threw (NodeError (lit "spawnSync xcrun ENOBUFS"))) goodBuild
            (exited 0) (Normal (lit "org.example.MyProduct" ++ [10%N]))
            (exited 0) (exited 0).

Definition unspawnedBoot : Answers :=
  mkAnswers [] spawnError goodBuild
            (exited 0) (Normal (lit "org.example.MyProduct" ++ [10%N]))
            (exited 0) (exited 0).

(** The event of starting the build tool. *)
Definition buildStart (project : XcodeProject) (udid scheme : jsstring)
           (args : FlagsT) : Event :=
  Spawn (lit "xcodebuild") (xcodebuildArgs project udid scheme args)
        (getProcessOptions args).

(** The events of [bootSimulator]. *)
Definition bootEvents (sim : Simulator) : list Event :=
  [Log Info (lit "Launching " ++ formatName (simName sim) (simVersion sim)
             ++ lit "...");
   SpawnSync (lit "xcrun") (bootArgs sim)].

Definition failedInstall : Answers :=
  mkAnswers [] (exited 255) goodBuild (exited 1)
            (Normal (lit "org.example.MyProduct" ++ [10%N]))
            (exited 1) (exited 1).

Definition failedRead : Answers :=
  mkAnswers [] (exited 255) goodBuild (exited 0)
            (Throw (NodeError (lit "Command failed: /usr/libexec/PlistBuddy")))
            (exited 0) (exited 0).

Definition missingDeploy : Answers :=
  mkAnswers [] (exited 255) goodBuild (exited 0)
            (Normal (lit "org.example.MyProduct" ++ [10%N]))
            (exited 0)
            (Returned (mkReturns None (Some (lit "spawnSync ios-deploy ENOENT")))).

(** The events of [installAndLaunch] when its steps return. *)
Definition installLaunchEvents (w : World) (sim : Simulator)
           (appPath plist : jsstring) : list Event :=
  [Log Info (lit "Installing " ++ appPath);
   SpawnSync (lit "xcrun") (installArgs sim appPath);
   ExecFileSync (lit "/usr/libexec/PlistBuddy") (plistArgs w appPath);
   Log Info (lit "Launching " ++ trim plist);
   SpawnSync (lit "xcrun") (launchArgs sim (trim plist))].

(** The events of [installOnDevice] when the installer returns [r]. *)
Definition deployEvents (selectedDevice : Device) (appPath : jsstring)
           (r : SpawnSyncReturns) : list Event :=
  [Log Info (lit "Installing and launching your app on "
             ++ name selectedDevice ++ lit "...");
   SpawnSync (lit "ios-deploy") (iosDeployInstallArgs selectedDevice appPath);
   match error r with
   | Some _ => Log Error installationFailed
   | None => Log Info (lit "** INSTALLATION SUCCEEDED **")
   end].

(** No error is logged in a trace. *)
Definition noErrorLogged (t : list Event) : bool :=
  forallb (fun ev => match ev with Log Error _ => false | _ => true end) t.

(** The line of [printFoundDevices] for one device. *)
Definition deviceLine (d : Device) : jsstring :=
  name d ++ lit " Udid: " ++ udid d ++ [10%N].

(** The head of the "choose one of" diagnostic. *)
Definition chooseHeader (kind wanted : jsstring) : jsstring :=
  lit "Could not find device with the " ++ kind ++ lit ": " ++ [dquote]
  ++ wanted ++ [dquote] ++ lit ". Choose one of the following:" ++ [10%N].

(** The events of [runIOS] up to the enumeration of the devices. *)
Definition preludeEvents (args : FlagsT) (project : XcodeProject)
  : list Event :=
  [Chdir (projectPath args);
   Log Info (lit "Found Xcode "
             ++ (if isWorkspace project then lit "workspace"
                 else lit "project")
             ++ lit " " ++ projectName project);
   ExecFileSync (lit "xcrun") [lit "instruments"; lit "-s"]].

(** [args] with another value of [args.udid]. *)
Definition withUdid (args : FlagsT) (u : option jsstring) : FlagsT :=
  mkFlags (simulator args) (configuration args) (scheme args)
          (projectPath args) (device args) u (packager args) (verbose args)
          (port args) (terminal args).

Definition twoPhones : Answers :=
  mkAnswers [iPhone8_12; iPhone8_13] (exited 255) goodBuild (exited 0)
            (Normal (lit "org.example.MyProduct" ++ [10%N]))
            (exited 0) (exited 0).

Definition wantIPad : FlagsT :=
  mkFlags (lit "iPhone X") (lit "Debug") None (lit "ios")
          (FlagString (lit "iPad")) (Some (lit "AAAA-1"))
          true false 8081 None.

Definition wantAny : FlagsT :=
  mkFlags (lit "iPhone X") (lit "Debug") None (lit "ios")
          FlagTrue None true false 8081 None.

(* ================================================================= *)
(** ** Vocabulary of the further properties *)

(** [args] with another value of [args.scheme] and of [args.device]. *)
Definition withScheme (args : FlagsT) (s : option jsstring) : FlagsT :=
  mkFlags (simulator args) (configuration args) s (projectPath args)
          (device args) (udidFlag args) (packager args) (verbose args)
          (port args) (terminal args).

Definition withDevice (args : FlagsT) (d : FlagValue) : FlagsT :=
  mkFlags (simulator args) (configuration args) (scheme args)
          (projectPath args) d (udidFlag args) (packager args)
          (verbose args) (port args) (terminal args).

(** The scheme that [runIOS] settles on. *)
Definition schemeOf (w : World) (args : FlagsT) (project : XcodeProject)
  : jsstring :=
  match scheme args with
  | Some s =>
      if truthy s then s
      else path_basename w (projectName project)
             (path_extname w (projectName project))
  | None =>
      path_basename w (projectName project)
        (path_extname w (projectName project))
  end.

(** The device satisfies the selector that [selectDevice] goes by. *)
Definition Selects (device : FlagValue) (udid' : option jsstring)
           (devices : list Device) (d : Device) : Prop :=
  match device with
  | FlagTrue => devices = [d]
  | FlagString sel => if truthy sel then NamedBy sel d else udid' = Some (udid d)
  | FlagUndefined => udid' = Some (udid d)
  end.



(** [xcpretty --version] ran without an exception. *)
Definition xcprettyProbe (w : World) : bool :=
  match execSync w (lit "xcpretty --version") with
  | Normal _ => true
  | Throw _ => false
  end.

(** The build pipes its output through xcpretty. *)
Definition usesXcpretty (w : World) (args : FlagsT) : bool :=
  negb (verbose args) && xcprettyProbe w.

(** The events of looking for xcpretty and of starting it. *)
Definition probeEvents (w : World) (args : FlagsT) : list Event :=
  if verbose args then []
  else ExecSync (lit "xcpretty --version")
       :: (if xcprettyProbe w then [Spawn (lit "xcpretty") [] []] else []).

(** The first line that [buildProject] logs. *)
Definition buildingNote (project : XcodeProject) (udid scheme : jsstring)
           (args : FlagsT) : Event :=
  Log Info (lit "Building using " ++ [dquote] ++ lit "xcodebuild "
            ++ joinSpace (xcodebuildArgs project udid scheme args)
            ++ [dquote]).

(** Events that run a subprocess to its end before going on:
    [spawnSync], [execFileSync] and [execSync]. *)
Definition isSynchronous (ev : Event) : bool :=
  match ev with
  | SpawnSync _ _ | ExecFileSync _ _ | ExecSync _ => true
  | _ => false
  end.

(** The event of booting a simulator through [instruments]. *)
Definition isBootStep (ev : Event) : bool :=
  match ev with
  | SpawnSync _ (tool :: _) => strict_eq tool (lit "instruments")
  | _ => false
  end.

Definition parseError : Exn :=
  CLIError (lit "Could not parse the simulator list output") None.

Definition simulatorNotFound (args : FlagsT) : Exn :=
  CLIError (lit "Could not find " ++ simulator args ++ lit " simulator") None.

Definition folderNotFound : Exn :=
  CLIError
    (lit "iOS project folder not found. Are you sure this is a React Native project?")
    None.

Definition projectNotFound (args : FlagsT) : Exn :=
  CLIError (lit "Could not find Xcode project files in " ++ [dquote]
            ++ projectPath args ++ [dquote] ++ lit " folder") None.

(** A world like [sampleWorld], with its project folder, what entering
    and listing it give, its project files, its inventory of simulators
    and the chosen simulator at will. *)
Definition hostWorld (folder : bool) (entering : Completion unit)
           (files : Completion (list jsstring))
           (found : option XcodeProject)
           (inventory : Completion jsstring) (parsed : Completion unit)
           (sim : option Simulator) (probe : Completion jsstring)
           (a : Answers) : World :=
  mkWorld unit
    (fun _ => folder)
    (fun _ => entering)
    (fun _ => files)
    (fun _ _ => lit "MyApp")
    (fun _ => lit ".xcodeproj")
    (fun dir file => dir ++ lit "/" ++ file)
    (fun _ => found)
    (fun _ => listed a)
    (fun _ => parsed)
    (fun _ _ => sim)
    (fun file args =>
       if strict_eq file (lit "/usr/libexec/PlistBuddy") then reading a
       else if secondIs (lit "list") args then inventory
       else Normal (lit "/Applications/Xcode.app/Contents/Developer" ++ [10%N]))
    (fun _ => probe)
    (fun file args =>
       if strict_eq file (lit "ios-deploy") then deploying a
       else if secondIs (lit "install") args then installing a
       else if secondIs (lit "launch") args then launching a
       else booting a)
    (fun _ _ _ => building a).

Definition bootedSimulator : Simulator :=
  mkSimulator (lit "SIM-2") (lit "iPhone 8") (lit "12.1") true.

Definition wantUdid : FlagsT :=
  mkFlags (lit "iPhone X") (lit "Debug") None (lit "ios")
          FlagUndefined (Some (lit "AAAA-1")) true false 8081 None.

(** [s.indexOf(p)], with [None] for -1. *)
Fixpoint indexOf (s p : jsstring) : option nat :=
  if startsWith s p then Some 0
  else match s with
       | [] => None
       | _ :: s' => option_map S (indexOf s' p)
       end.

Definition projectFiles : Completion (list jsstring) :=
  Normal [lit "MyApp.xcodeproj"].

Definition notADirectory : Exn :=
  NodeError (lit "ENOTDIR: not a directory, chdir ios").

Definition exportingOutput : jsstring :=
  lit "    export FULL_PRODUCT_NAME=MyProduct.app" ++ [10%N]
  ++ lit "** BUILD SUCCEEDED **".

Definition xcprettyMissing : Completion jsstring :=
  Throw (NodeError (lit "xcpretty: command not found")).

(** The inventory query fails. *)
Definition noInventoryWorld : World :=
  hostWorld true (Normal tt) projectFiles (Some sampleProject)
    (Throw (NodeError (lit "Command failed: xcrun simctl list")))
    (Normal tt) (Some sampleSimulator) xcprettyMissing goodAnswers.

(** The inventory is not JSON. *)
Definition badJsonWorld : World :=
  hostWorld true (Normal tt) projectFiles (Some sampleProject)
    (Normal (lit "{"))
    (Throw (NodeError (lit "Unexpected end of JSON input")))
    (Some sampleSimulator) xcprettyMissing goodAnswers.

(** The inventory has no simulator of the wanted name. *)
Definition noSimulatorWorld : World :=
  hostWorld true (Normal tt) projectFiles (Some sampleProject)
    (Normal (lit "{}")) (Normal tt) None xcprettyMissing goodAnswers.

(** The chosen simulator is booted, and xcpretty is installed. *)
Definition bootedWorld : World :=
  hostWorld true (Normal tt) projectFiles (Some sampleProject)
    (Normal (lit "{}")) (Normal tt) (Some bootedSimulator)
    (Normal (lit "0.3.0")) goodAnswers.

(** There is no project folder. *)
Definition noFolderWorld : World :=
  hostWorld false (Normal tt) projectFiles None
    (Normal (lit "{}")) (Normal tt) None xcprettyMissing goodAnswers.

(** The project path is a regular file. *)
Definition fileNotFolderWorld : World :=
  hostWorld true (Throw notADirectory) projectFiles None
    (Normal (lit "{}")) (Normal tt) None xcprettyMissing goodAnswers.

(** The folder cannot be listed. *)
Definition unreadableFolderWorld : World :=
  hostWorld true (Normal tt)
    (Throw (NodeError (lit "EACCES: permission denied, scandir .")))
    None (Normal (lit "{}")) (Normal tt) None xcprettyMissing goodAnswers.

(** The folder holds no Xcode project. *)
Definition noProjectWorld : World :=
  hostWorld true (Normal tt) (Normal [lit "Podfile"]) None
    (Normal (lit "{}")) (Normal tt) None xcprettyMissing goodAnswers.

(** xcpretty is installed and the build fails. *)
Definition prettyFailingWorld : World :=
  hostWorld true (Normal tt) projectFiles (Some sampleProject)
    (Normal (lit "{}")) (Normal tt) (Some sampleSimulator)
    (Normal (lit "0.3.0")) failedAnswers.

(* ================================================================= *)
(** * Properties *)

(** ** Strings *)

Lemma strict_eq_iff (a b : jsstring) : strict_eq a b = true <-> a = b.
Proof.
  revert b; induction a as [|x a IH]; intros [|y b]; simpl;
    try (split; [discriminate | congruence]); try tauto.
  rewrite andb_true_iff, N.eqb_eq, IH.
  split; [intros [-> ->]; reflexivity | intros [= -> ->]; auto].
Qed.

Lemma strict_eq_false_iff (a b : jsstring) : strict_eq a b = false <-> a <> b.
Proof.
  rewrite <- strict_eq_iff. destruct (strict_eq a b); split; congruence.
Qed.

Lemma eqFlag_string (x s : jsstring) : eqFlag x (FlagString s) = true <-> x = s.
Proof. apply strict_eq_iff. Qed.

Lemma eqOpt_some (x s : jsstring) : eqOpt x (Some s) = true <-> x = s.
Proof. apply strict_eq_iff. Qed.

(** ** The downward scan *)

Lemma scanDown_app (test : Device -> bool) (l l' : list Device) (n : nat) :
  n <= List.length l -> scanDown test (l ++ l') n = scanDown test l n.
Proof.
  induction n as [|i IH]; intros Hn; simpl; [reflexivity|].
  rewrite nth_error_app1 by lia.
  destruct (nth_error l i); [|reflexivity].
  destruct (test d); [reflexivity|]. apply IH; lia.
Qed.

Lemma scanDown_snoc (test : Device -> bool) (l : list Device) (x : Device) :
  scanDown test (l ++ [x]) (List.length (l ++ [x]))
  = if test x then Some x else scanDown test l (List.length l).
Proof.
  rewrite length_app, Nat.add_comm; simpl.
  rewrite nth_error_app2, Nat.sub_diag by lia; simpl.
  destruct (test x); [reflexivity|]. apply scanDown_app; lia.
Qed.

(** The scan is a search of the reversed list. *)
Lemma scanDown_find (test : Device -> bool) (l : list Device) :
  scanDown test l (List.length l) = find test (rev l).
Proof.
  induction l as [|x l IH] using rev_ind; [reflexivity|].
  rewrite scanDown_snoc, rev_app_distr; simpl. now rewrite IH.
Qed.

Lemma scanDown_last (test : Device -> bool) (l : list Device) (d : Device) :
  scanDown test l (List.length l) = Some d <-> LastSuch test l d.
Proof.
  induction l as [|x l IH] using rev_ind.
  - simpl; split; [discriminate|].
    intros (b & a & H & _); now destruct b.
  - rewrite scanDown_snoc. destruct (test x) eqn:Hx.
    + split.
      * intros [= ->]. exists l, []. auto.
      * intros (b & a & H & Hd & Ha).
        destruct a as [|y a] using rev_ind.
        -- apply app_inj_tail in H. destruct H as [_ ->]. reflexivity.
        -- clear IHa. change (b ++ d :: a ++ [y]) with (b ++ (d :: a) ++ [y]) in H.
           rewrite app_assoc in H. apply app_inj_tail in H.
           destruct H as [_ ->].
           apply Forall_app in Ha. destruct Ha as [_ Ha].
           inversion Ha; congruence.
    + rewrite IH. split.
      * intros (b & a & -> & Hd & Ha). exists b, (a ++ [x]).
        rewrite <- app_assoc. repeat split; auto.
        apply Forall_app; split; auto.
      * intros (b & a & H & Hd & Ha).
        destruct a as [|y a] using rev_ind.
        -- apply app_inj_tail in H. destruct H as [_ ->]. congruence.
        -- clear IHa. change (b ++ d :: a ++ [y]) with (b ++ (d :: a) ++ [y]) in H.
           rewrite app_assoc in H. apply app_inj_tail in H.
           destruct H as [-> _].
           apply Forall_app in Ha. destruct Ha as [Ha _].
           exists b, a. auto.
Qed.

Lemma scanDown_none (test : Device -> bool) (l : list Device) :
  scanDown test l (List.length l) = None
  <-> Forall (fun x => test x = false) l.
Proof.
  rewrite scanDown_find. split.
  - intros H. apply Forall_forall. intros x Hx.
    apply (find_none _ _ H). now apply in_rev in Hx.
  - intros H. destruct (find test (rev l)) eqn:E; [|reflexivity].
    apply find_some in E. destruct E as [Hin Ht].
    apply in_rev in Hin. rewrite Forall_forall in H.
    rewrite (H _ Hin) in Ht. discriminate.
Qed.

(** ** Selecting a device *)

Lemma Forall_test_false (P : Device -> Prop) (test : Device -> bool)
      (l : list Device) :
  (forall d, test d = true <-> P d) ->
  Forall (fun x => test x = false) l <-> Forall (fun x => ~ P x) l.
Proof.
  intros H. rewrite !Forall_forall.
  split; intros Hl x Hx; specialize (Hl x Hx); specialize (H x).
  - intros HP. apply H in HP. congruence.
  - destruct (test x); [|reflexivity]. exfalso. apply Hl, H. reflexivity.
Qed.

(** C1. For every device list (the non-empty ones included) and every
    identifier [u], [matchingDeviceByUdid] is a search of the list in
    reverse input order for an identifier equal to [u]: it returns [d]
    exactly when [d] is the last device of the list whose identifier is
    [u], and [null] exactly when no device has the identifier [u]. *)
Theorem matchingDeviceByUdid_last (devices : list Device) (u : jsstring) :
  matchingDeviceByUdid devices (Some u)
  = find (fun d => strict_eq (udid d) u) (rev devices)
  /\ (forall d,
        matchingDeviceByUdid devices (Some u) = Some d
        <-> exists before after,
              devices = before ++ d :: after /\ udid d = u
              /\ Forall (fun x => udid x <> u) after)
  /\ (matchingDeviceByUdid devices (Some u) = None
      <-> Forall (fun x => udid x <> u) devices).
Proof.
  unfold matchingDeviceByUdid.
  assert (Ht : forall d, eqOpt (udid d) (Some u) = true <-> udid d = u)
    by (intros d; apply eqOpt_some).
  split; [apply scanDown_find|]. split.
  - intros d. rewrite scanDown_last. unfold LastSuch.
    split; intros (b & a & H & Hd & Ha); exists b, a; repeat split; auto.
    + now apply Ht.
    + now apply (Forall_test_false _ _ _ Ht).
    + now apply Ht.
    + now apply (Forall_test_false _ _ _ Ht).
  - rewrite scanDown_none. apply Forall_test_false, Ht.
Qed.

Lemma nameTest_iff (sel : jsstring) (d : Device) :
  eqFlag (name d) (FlagString sel)
  || eqFlag (formattedDeviceName d) (FlagString sel) = true
  <-> NamedBy sel d.
Proof.
  unfold NamedBy, formattedDeviceName, formatName.
  now rewrite orb_true_iff, !eqFlag_string.
Qed.

(** C2. For every device list and every literal name [sel],
    [matchingDevice] logs nothing and returns [d] exactly when [d] is the
    latest entry of the list whose name, or whose display form
    ["<name> (<version>)"], equals [sel]; it returns [null] exactly when
    no entry satisfies either equality. *)
Theorem matchingDevice_by_name (devices : list Device) (sel : jsstring) :
  exists r,
    matchingDevice devices (FlagString sel) = ([], Normal r)
    /\ (forall d,
          r = Some d
          <-> exists before after,
                devices = before ++ d :: after /\ NamedBy sel d
                /\ Forall (fun x => ~ NamedBy sel x) after)
    /\ (r = None <-> Forall (fun x => ~ NamedBy sel x) devices).
Proof.
  eexists. split; [reflexivity|]. split.
  - intros d. rewrite scanDown_last. unfold LastSuch.
    split; intros (b & a & H & Hd & Ha); exists b, a; repeat split; auto.
    + now apply nameTest_iff.
    + now apply (Forall_test_false _ _ _ (nameTest_iff sel)).
    + now apply nameTest_iff.
    + now apply (Forall_test_false _ _ _ (nameTest_iff sel)).
  - rewrite scanDown_none. apply Forall_test_false, nameTest_iff.
Qed.

Lemma matchingDevice_by_name_witness :
  matchingDevice [iPhone8_12; iPhone8_13]
    (FlagString (lit "iPhone 8 (12.0)"))
  = ([], Normal (Some iPhone8_12))
  /\ matchingDevice [iPhone8_12; iPhone8_13] (FlagString (lit "iPhone 8"))
     = ([], Normal (Some iPhone8_13))
  /\ matchingDevice [iPhone8_12; iPhone8_13] (FlagString (lit "iPhone 8 ()"))
     = ([], Normal None).
Proof.
  split; [|split].
  - destruct (matchingDevice_by_name [iPhone8_12; iPhone8_13]
                (lit "iPhone 8 (12.0)")) as (r & -> & Hsome & _).
    f_equal. f_equal. apply Hsome.
    exists [], [iPhone8_13]. split; [reflexivity|]. split.
    + right. reflexivity.
    + repeat constructor. intros [H | H]; discriminate.
  - destruct (matchingDevice_by_name [iPhone8_12; iPhone8_13]
                (lit "iPhone 8")) as (r & -> & Hsome & _).
    f_equal. f_equal. apply Hsome.
    exists [iPhone8_12], []. split; [reflexivity|]. split.
    + left. reflexivity.
    + constructor.
  - destruct (matchingDevice_by_name [iPhone8_12; iPhone8_13]
                (lit "iPhone 8 ()")) as (r & -> & _ & Hnone).
    f_equal. f_equal. apply Hnone.
    repeat constructor; intros [H | H]; discriminate.
Defined.

Lemma scanDown_never (devices : list Device) (n : nat) :
  scanDown (fun d => eqFlag (name d) FlagTrue
                     || eqFlag (formattedDeviceName d) FlagTrue) devices n
  = None.
Proof.
  induction n as [|i IH]; simpl; [reflexivity|].
  destruct (nth_error devices i); auto.
Qed.

(** C3. With the device flag given without a name ([true]),
    [matchingDevice] returns the only device of a one-element list, after
    logging that the selection was implicit, and returns [null], with
    nothing logged, for a list of zero or of two or more devices. *)
Theorem matchingDevice_any (devices : list Device) :
  (List.length devices = 1 ->
   exists d, devices = [d]
             /\ matchingDevice devices FlagTrue
                = ([implicitNote d], Normal (Some d)))
  /\ (List.length devices <> 1 ->
      matchingDevice devices FlagTrue = ([], Normal None)).
Proof.
  split.
  - destruct devices as [|d [|d' l]]; simpl; try discriminate.
    intros _. exists d. split; reflexivity.
  - intros Hn. destruct devices as [|d [|d' l]].
    + reflexivity.
    + simpl in Hn. congruence.
    + unfold matchingDevice. now rewrite scanDown_never.
Qed.

Lemma matchingDevice_any_witness :
  matchingDevice [iPhone8_12] FlagTrue
  = ([implicitNote iPhone8_12], Normal (Some iPhone8_12))
  /\ matchingDevice [iPhone8_12; iPhone8_13] FlagTrue = ([], Normal None)
  /\ matchingDevice [] FlagTrue = ([], Normal None).
Proof.
  split; [|split].
  - destruct (proj1 (matchingDevice_any [iPhone8_12]) eq_refl)
      as (d & Hd & H).
    injection Hd as <-. exact H.
  - apply (proj2 (matchingDevice_any [iPhone8_12; iPhone8_13])).
    simpl; lia.
  - apply (proj2 (matchingDevice_any [])). simpl; lia.
Defined.

(** Scenario A of the specification: of two entries named "iPhone 8",
    the selector "iPhone 8 (13.0)" picks the one at version 13.0. *)
Example scenario_A :
  matchingDevice [iPhone8_12; iPhone8_13] (FlagString (lit "iPhone 8 (13.0)"))
  = ([], Normal (Some iPhone8_13)).
Proof. reflexivity. Qed.

(** ** The build path *)

Lemma startsWith_iff (s p : jsstring) :
  startsWith s p = true <-> exists post, s = p ++ post.
Proof.
  revert s; induction p as [|y p IH]; intros [|x s]; simpl.
  - split; [intros _; now exists [] | reflexivity].
  - split; [intros _; now exists (x :: s) | reflexivity].
  - split; [discriminate | intros (post & H); discriminate].
  - rewrite andb_true_iff, N.eqb_eq, IH. split.
    + intros (-> & post & ->). now exists post.
    + intros (post & [= -> ->]). split; [reflexivity | now exists post].
Qed.

Lemma includes_iff (s sub : jsstring) :
  includes s sub = true <-> exists pre post, s = pre ++ sub ++ post.
Proof.
  induction s as [|x s IH]; cbn [includes].
  - rewrite orb_false_r, startsWith_iff. split.
    + intros (post & H). now exists [], post.
    + intros (pre & post & H). destruct pre; [now exists post|discriminate].
  - rewrite orb_true_iff, startsWith_iff, IH. split.
    + intros [(post & H) | (pre & post & H)].
      * now exists [], post.
      * exists (x :: pre), post. simpl. now rewrite H.
    + intros ([|y pre] & post & H).
      * left. now exists post.
      * right. injection H as -> H. now exists pre, post.
Qed.

Lemma lowerUnit_letter (l c : N) :
  (97 <= l <= 122)%N -> lowerUnit c = l <-> letterOf l c.
Proof.
  intros Hl. unfold lowerUnit, letterOf.
  destruct (65 <=? c)%N eqn:H1; destruct (c <=? 90)%N eqn:H2; simpl;
    try apply N.leb_le in H1; try apply N.leb_le in H2;
    try apply N.leb_gt in H1; try apply N.leb_gt in H2; lia.
Qed.

Lemma includes_tvos (appName : jsstring) :
  includes (toLowerCase appName) (lit "tvos") = true <-> MentionsTvos appName.
Proof.
  rewrite includes_iff. unfold toLowerCase, MentionsTvos. split.
  - intros (pre & post & H).
    apply map_eq_app in H. destruct H as (pre' & rest & -> & _ & H).
    apply map_eq_app in H. destruct H as (mid & post' & -> & H & _).
    destruct mid as [|t [|v [|o [|s [|? ?]]]]]; try discriminate.
    injection H as Ht Hv Ho Hs.
    exists pre', t, v, o, s, post'. split; [reflexivity|].
    repeat split; apply lowerUnit_letter; auto; lia.
  - intros (pre & t & v & o & s & post & -> & Ht & Hv & Ho & Hs).
    exists (List.map lowerUnit pre), (List.map lowerUnit post).
    rewrite !map_app. simpl.
    apply lowerUnit_letter in Ht, Hv, Ho, Hs; try lia.
    now rewrite Ht, Hv, Ho, Hs.
Qed.

(** C5. For all configuration, artifact-name and scheme strings the
    build path is
    [<derived-data directory>/Build/Products/<configuration>-<triplet>/<artifactName>.app],
    the derived-data directory being the [build/<scheme>] handed to the
    build tool.  The triplet is "iphoneos" for a physical target whatever
    the artifact name, "appletvsimulator" for a virtual target whose
    artifact name contains "tvos" in any letter case, and
    "iphonesimulator" otherwise.  Configuration "Debug" with artifact and
    scheme "MyApp" on a virtual target gives a path that ends in
    [Debug-iphonesimulator/MyApp.app]. *)
Theorem getBuildPath_layout
        (configuration appName scheme : jsstring) (isDevice : bool) :
  (exists triplet,
      getBuildPath configuration appName isDevice scheme
      = derivedDataPath scheme ++ lit "/Build/Products/" ++ configuration
        ++ lit "-" ++ triplet ++ lit "/" ++ appName ++ lit ".app"
      /\ (isDevice = true -> triplet = lit "iphoneos")
      /\ (isDevice = false -> MentionsTvos appName ->
          triplet = lit "appletvsimulator")
      /\ (isDevice = false -> ~ MentionsTvos appName ->
          triplet = lit "iphonesimulator"))
  /\ getBuildPath (lit "Debug") (lit "MyApp") false (lit "MyApp")
     = lit "build/MyApp/Build/Products/"
       ++ lit "Debug-iphonesimulator/MyApp.app".
Proof.
  split; [|reflexivity].
  unfold getBuildPath, derivedDataPath.
  destruct isDevice.
  - eexists. split; [now rewrite <- app_assoc|].
    repeat split; intros; congruence.
  - destruct (includes (toLowerCase appName) (lit "tvos")) eqn:E.
    + apply includes_tvos in E.
      eexists. split; [now rewrite <- app_assoc|].
      repeat split; intros; try congruence; tauto.
    + assert (~ MentionsTvos appName)
        by (intros H; apply includes_tvos in H; congruence).
      eexists. split; [now rewrite <- app_assoc|].
      repeat split; intros; try congruence; tauto.
Qed.

Lemma getBuildPath_layout_witness :
  getBuildPath (lit "Release") (lit "HelloWorld-tvOS") false (lit "hello")
  = lit "build/hello/Build/Products/Release-appletvsimulator/"
    ++ lit "HelloWorld-tvOS.app"
  /\ getBuildPath (lit "Release") (lit "HelloWorld-tvOS") true (lit "hello")
     = lit "build/hello/Build/Products/Release-iphoneos/"
       ++ lit "HelloWorld-tvOS.app".
Proof.
  split.
  - destruct (proj1 (getBuildPath_layout (lit "Release")
                       (lit "HelloWorld-tvOS") (lit "hello") false))
      as (t & H & _ & Htv & _).
    rewrite H, Htv; [reflexivity | reflexivity |].
    exists (lit "HelloWorld-"), 116%N, 118%N, 79%N, 83%N, [].
    unfold letterOf. repeat split; auto.
  - destruct (proj1 (getBuildPath_layout (lit "Release")
                       (lit "HelloWorld-tvOS") (lit "hello") true))
      as (t & H & Hdev & _).
    rewrite H, Hdev; reflexivity.
Defined.

(** ** The product-name pattern *)

Lemma app_eq_length {A} (l1 l2 r1 r2 : list A) :
  l1 ++ r1 = l2 ++ r2 -> List.length l1 = List.length l2 ->
  l1 = l2 /\ r1 = r2.
Proof.
  revert l2; induction l1 as [|x l1 IH]; intros [|y l2] H Hl;
    simpl in *; try discriminate; auto.
  injection H as -> H. injection Hl as Hl.
  destruct (IH _ H Hl) as [-> ->]. auto.
Qed.

Lemma matchNodes_chars (p : jsstring) (r : list Node) (s : jsstring)
      (cap : option jsstring) (res : option jsstring) :
  matchNodes (List.map Char p ++ r) s cap = Some res
  <-> exists s', s = p ++ s' /\ matchNodes r s' cap = Some res.
Proof.
  revert s; induction p as [|y p IH]; intros s.
  - simpl. split; [intros H; now exists s | intros (s' & -> & H); exact H].
  - cbn [List.map app matchNodes]. destruct s as [|x s].
    + split; [discriminate | intros (s' & H & _); discriminate].
    + destruct (N.eqb_spec x y) as [->|Hne].
      * rewrite IH. split.
        -- intros (s' & -> & H). now exists s'.
        -- intros (s' & [= ->] & H). now exists s'.
      * split; [discriminate | intros (s' & [= -> _] & _); congruence].
Qed.

Lemma matchNodes_end (s : jsstring) (cap res : option jsstring) :
  matchNodes [EndM] s cap = Some res <-> res = cap /\ AtLineEnd s.
Proof.
  unfold AtLineEnd. destruct s as [|x s]; simpl.
  - split; [intros [= ->]; auto | intros [-> _]; reflexivity].
  - destruct (isLineTerminator x) eqn:E.
    + split; [intros [= ->] | intros [-> _]; reflexivity].
      split; [reflexivity | right; now exists x, s].
    + split; [discriminate|].
      intros [_ [H | (c & r & [= -> ->] & H)]]; congruence.
Qed.

Lemma quote_not_terminator : isLineTerminator dquote = false.
Proof. reflexivity. Qed.

Lemma matchNodes_closing (s : jsstring) (cap res : option jsstring) :
  matchNodes [OptChar dquote; EndM] s cap = Some res
  <-> res = cap
      /\ exists q2 rest, s = q2 ++ rest /\ OptQuote q2 /\ AtLineEnd rest.
Proof.
  cbn [matchNodes]. unfold OptQuote.
  destruct s as [|x s].
  - change (match [] with [] => Some cap | x :: _ => _ end)
      with (Some cap).
    split.
    + intros [= ->]. split; [reflexivity|].
      exists [], []. unfold AtLineEnd. auto.
    + intros [-> _]. reflexivity.
  - destruct (N.eqb_spec x dquote) as [->|Hne].
    + fold (matchNodes [EndM] s cap).
      rewrite quote_not_terminator.
      destruct (matchNodes [EndM] s cap) as [r|] eqn:E.
      * apply matchNodes_end in E. destruct E as [-> E].
        split.
        -- intros [= ->]. split; [reflexivity|].
           exists [dquote], s. auto.
        -- intros [-> _]. reflexivity.
      * split; [discriminate|].
        intros [-> (q2 & rest & H & [-> | ->] & Hr)]; simpl in H.
        -- subst rest. destruct Hr as [Hr | (c & r & [= <- _] & Hc)];
             [discriminate|]. now rewrite quote_not_terminator in Hc.
        -- injection H as <-.
           assert (matchNodes [EndM] s cap = Some cap)
             by (apply matchNodes_end; auto).
           congruence.
    + destruct (isLineTerminator x) eqn:Ex.
      * split.
        -- intros [= ->]. split; [reflexivity|].
           exists [], (x :: s). repeat split; auto.
           right. now exists x, s.
        -- intros [-> _]. reflexivity.
      * split; [discriminate|].
        intros [-> (q2 & rest & H & [-> | ->] & Hr)]; simpl in H.
        -- subst rest. destruct Hr as [Hr | (c & r & [= <- _] & Hc)];
             congruence.
        -- injection H as -> _. congruence.
Qed.

Lemma matchNodes_afterGroup (s : jsstring) (cap res : option jsstring) :
  matchNodes afterGroup s cap = Some res
  <-> res = cap
      /\ exists c q2 rest,
           s = c :: lit "app" ++ q2 ++ rest
           /\ isLineTerminator c = false /\ OptQuote q2 /\ AtLineEnd rest.
Proof.
  unfold afterGroup. cbn [app matchNodes].
  destruct s as [|c s].
  - split; [discriminate | intros [_ (c & q2 & rest & H & _)]; discriminate].
  - destruct (isLineTerminator c) eqn:Ec.
    + split; [discriminate|].
      intros [_ (c' & q2 & rest & [= -> _] & H & _)]. congruence.
    + rewrite matchNodes_chars. split.
      * intros (s' & -> & H). apply matchNodes_closing in H.
        destruct H as (-> & q2 & rest & -> & Hq & Hr).
        split; [reflexivity|]. exists c, q2, rest. auto.
      * intros (-> & c' & q2 & rest & [= <- ->] & _ & Hq & Hr).
        exists (q2 ++ rest). split; [reflexivity|].
        apply matchNodes_closing. split; [reflexivity|].
        now exists q2, rest.
Qed.

(** [(.+)] hands to its continuation the longest run of the line that
    the continuation accepts. *)
Lemma dotPlus_spec {R} (k : jsstring -> jsstring -> option R)
      (s acc : jsstring) :
  match dotPlus k s acc with
  | Some res =>
      exists run rest,
        s = run ++ rest /\ run <> [] /\ NoTerminator run
        /\ k rest (acc ++ run) = Some res
        /\ forall run' rest',
             s = run' ++ rest' -> NoTerminator run' ->
             List.length run < List.length run' ->
             k rest' (acc ++ run') = None
  | None =>
      forall run rest,
        s = run ++ rest -> run <> [] -> NoTerminator run ->
        k rest (acc ++ run) = None
  end.
Proof.
  revert acc; induction s as [|x s IH]; intros acc; simpl.
  - intros run rest H Hne. symmetry in H. apply app_eq_nil in H.
    destruct H; congruence.
  - destruct (isLineTerminator x) eqn:Ex.
    + intros [|y run] rest H Hne Hrun; [congruence|].
      injection H as <- _. inversion Hrun; congruence.
    + specialize (IH (acc ++ [x])).
      destruct (dotPlus k s (acc ++ [x])) as [res|].
      * destruct IH as (run & rest & -> & Hne & Hrun & Hk & Hmax).
        exists (x :: run), rest. rewrite <- app_assoc in Hk.
        repeat split; auto; try discriminate.
        -- constructor; auto.
        -- intros [|y run'] rest' H Hrun' Hlen; simpl in Hlen; [lia|].
           injection H as <- H. apply Forall_inv_tail in Hrun'.
           specialize (Hmax run' rest' H ltac:(assumption) ltac:(lia)).
           now rewrite <- app_assoc in Hmax.
      * destruct (k s (acc ++ [x])) as [res|] eqn:Hk.
        -- exists [x], s. repeat split; auto; try discriminate.
           ++ constructor; auto.
           ++ intros [|y [|z run']] rest' H Hrun' Hlen; simpl in Hlen;
                try lia.
              injection H as <- H. apply Forall_inv_tail in Hrun'.
              specialize (IH (z :: run') rest' H ltac:(discriminate)
                            ltac:(assumption)).
              now rewrite <- app_assoc in IH.
        -- intros [|y [|z run]] rest H Hne Hrun; [congruence| |].
           ++ injection H as <- <-. exact Hk.
           ++ injection H as <- H. apply Forall_inv_tail in Hrun.
              specialize (IH (z :: run) rest H ltac:(discriminate)
                            ltac:(assumption)).
              now rewrite <- app_assoc in IH.
Qed.

(** [exec] reports the match at the first start position that has one. *)
Lemma exec_spec (r : list Node) (s : jsstring) :
  match exec r s with
  | Some res =>
      exists pre post,
        s = pre ++ post /\ matchNodes r post None = Some res
        /\ forall pre' post',
             s = pre' ++ post' -> List.length pre' < List.length pre ->
             matchNodes r post' None = None
  | None =>
      forall pre post, s = pre ++ post -> matchNodes r post None = None
  end.
Proof.
  induction s as [|x s IH]; simpl.
  - destruct (matchNodes r [] None) as [res|] eqn:E.
    + exists [], []. repeat split; auto. intros ? ? _ H; simpl in H; lia.
    + intros pre post H. symmetry in H. apply app_eq_nil in H.
      destruct H as [_ ->]. exact E.
  - destruct (matchNodes r (x :: s) None) as [res|] eqn:E.
    + exists [], (x :: s). repeat split; auto.
      intros ? ? _ H; simpl in H; lia.
    + destruct (exec r s) as [res|].
      * destruct IH as (pre & post & -> & Hm & Hfirst).
        exists (x :: pre), post. repeat split; auto.
        intros [|y pre'] post' H Hlen; simpl in *.
        -- now subst post'.
        -- injection H as <- H. apply (Hfirst pre' post' H). lia.
      * intros [|y pre] post H; simpl in H.
        -- now subst post.
        -- injection H as <- H. now apply (IH pre post).
Qed.

Lemma ExportAt_GroupAt (text pre q1 name : jsstring) :
  ExportAt text pre q1 name
  <-> exists tail,
        text = pre ++ exportPrefix ++ q1 ++ tail
        /\ OptQuote q1 /\ GroupAt tail name.
Proof.
  unfold ExportAt, GroupAt. split.
  - intros (c & q2 & rest & -> & H1 & H2 & H). eexists. split; [reflexivity|].
    split; [assumption|]. exists c, q2, rest. tauto.
  - intros (tail & -> & H1 & c & q2 & rest & -> & H2 & H).
    exists c, q2, rest. tauto.
Qed.

Lemma group_spec (s : jsstring) :
  match dotPlus (fun s' g => matchNodes afterGroup s' (Some g)) s [] with
  | Some res =>
      exists name,
        res = Some name /\ GroupAt s name
        /\ forall name', GroupAt s name' ->
                         List.length name' <= List.length name
  | None => forall name, ~ GroupAt s name
  end.
Proof.
  pose proof (dotPlus_spec
                (fun s' g => matchNodes afterGroup s' (Some g)) s []) as H.
  cbv beta in H.
  destruct (dotPlus _ s []) as [res|].
  - destruct H as (run & rest & -> & Hne & Hrun & Hk & Hmax).
    cbn [app] in Hk. apply matchNodes_afterGroup in Hk.
    destruct Hk as (-> & c & q2 & rest' & -> & Hc & Hq & Hr).
    exists run. split; [reflexivity|]. split.
    + exists c, q2, rest'. tauto.
    + intros name' (c' & q2' & rest'' & E & Hq' & Hne' & Hrun' & Hc' & Hr').
      destruct (Nat.le_gt_cases (List.length name') (List.length run))
        as [Hle|Hgt]; [exact Hle|].
      specialize (Hmax name' _ E Hrun' Hgt). cbn [app] in Hmax.
      assert (matchNodes afterGroup (c' :: lit "app" ++ q2' ++ rest'')
                (Some name') = Some (Some name')) as Hyes.
      { apply matchNodes_afterGroup. split; [reflexivity|].
        exists c', q2', rest''. tauto. }
      congruence.
  - intros name (c & q2 & rest & E & Hq & Hne & Hrun & Hc & Hr).
    specialize (H name _ E Hne Hrun). cbn [app] in H.
    assert (matchNodes afterGroup (c :: lit "app" ++ q2 ++ rest)
              (Some name) = Some (Some name)) as Hyes.
    { apply matchNodes_afterGroup. split; [reflexivity|].
      exists c, q2, rest. tauto. }
    congruence.
Qed.

Lemma OptQuote_length (q : jsstring) : OptQuote q -> List.length q <= 1.
Proof. intros [-> | ->]; simpl; lia. Qed.

(** The pattern without its literal prefix: the opening quote is taken
    when the rest can still match, and the group is as long as it can
    be. *)
Lemma quoted_group_spec (s : jsstring) :
  match matchNodes (OptChar dquote :: GroupDotPlus :: afterGroup) s None with
  | Some res =>
      exists q1 name tail,
        res = Some name /\ s = q1 ++ tail /\ OptQuote q1 /\ GroupAt tail name
        /\ forall q1' name' tail',
             s = q1' ++ tail' -> OptQuote q1' -> GroupAt tail' name' ->
             List.length q1' <= List.length q1
             /\ (List.length q1' = List.length q1 ->
                 List.length name' <= List.length name)
  | None =>
      forall q1 name tail,
        s = q1 ++ tail -> OptQuote q1 -> ~ GroupAt tail name
  end.
Proof.
  cbn [matchNodes].
  set (K := fun (s' g : jsstring) => matchNodes afterGroup s' (Some g)).
  assert (Hquoted :
            forall s', s = dquote :: s' ->
                       dotPlus K s' [] = None ->
                       forall name tail, s = [dquote] ++ tail ->
                                         ~ GroupAt tail name).
  { intros s' -> Hnone name tail [= <-]. pose proof (group_spec s') as G.
    fold K in G. rewrite Hnone in G. apply G. }
  assert (Hbare :
            (forall s', s = dquote :: s' -> dotPlus K s' [] = None) ->
            match dotPlus K s [] with
            | Some res =>
                exists q1 name tail,
                res = Some name /\ s = q1 ++ tail /\ OptQuote q1
                /\ GroupAt tail name
                /\ forall q1' name' tail',
                    s = q1' ++ tail' -> OptQuote q1' -> GroupAt tail' name' ->
                    List.length q1' <= List.length q1
                    /\ (List.length q1' = List.length q1 ->
                        List.length name' <= List.length name)
            | None =>
                forall q1 name tail,
                  s = q1 ++ tail -> OptQuote q1 -> ~ GroupAt tail name
            end).
  { intros Hno. pose proof (group_spec s) as G. fold K in G.
    assert (Hq : forall name tail, s = [dquote] ++ tail ->
                                   ~ GroupAt tail name).
    { intros name tail E. exact (Hquoted tail E (Hno tail E) name tail E). }
    destruct (dotPlus K s []) as [res|].
    - destruct G as (name & -> & Hg & Hmax).
      exists [], name, s. repeat split; auto; [left; reflexivity| |].
      + destruct H0 as [-> | ->]; simpl; [lia|].
        exfalso. now apply (Hq name' tail' H).
      + destruct H0 as [-> | ->]; simpl; [|discriminate].
        intros _. simpl in H. subst tail'. now apply Hmax.
    - intros q1 name tail E [-> | ->].
      + simpl in E. subst tail. apply G.
      + now apply Hq. }
  destruct s as [|x s'].
  - apply Hbare. intros s' [=].
  - destruct (N.eqb_spec x dquote) as [->|Hne].
    + pose proof (group_spec s') as G. fold K in G.
      destruct (dotPlus K s' []) as [res|] eqn:E.
      * destruct G as (name & -> & Hg & Hmax).
        exists [dquote], name, s'. repeat split; auto; [right; reflexivity| |].
        -- now apply OptQuote_length.
        -- destruct H0 as [-> | ->]; simpl; [discriminate|].
           intros _. injection H as <-. now apply Hmax.
      * apply Hbare. intros s'' [= <-]. exact E.
    + apply Hbare. intros s'' [= -> _]. congruence.
Qed.

Lemma pattern_shape :
  productNamePattern
  = List.map Char exportPrefix ++ OptChar dquote :: GroupDotPlus :: afterGroup.
Proof. reflexivity. Qed.

Lemma pattern_matches_export (q1 tail name : jsstring) :
  OptQuote q1 -> GroupAt tail name ->
  matchNodes productNamePattern (exportPrefix ++ q1 ++ tail) None <> None.
Proof.
  intros Hq Hg Hnone.
  pose proof (quoted_group_spec (q1 ++ tail)) as Q.
  destruct (matchNodes (OptChar dquote :: GroupDotPlus :: afterGroup)
              (q1 ++ tail) None) as [res|] eqn:E.
  - assert (matchNodes productNamePattern (exportPrefix ++ q1 ++ tail) None
            = Some res) as Hsome.
    { rewrite pattern_shape. apply matchNodes_chars.
      now exists (q1 ++ tail). }
    congruence.
  - exact (Q q1 name tail eq_refl Hq Hg).
Qed.

(** [getProductName] gives the group of the first match, and [null]
    exactly when the text has no match. *)
Lemma getProductName_spec (text : jsstring) :
  match getProductName text with
  | Some name => FirstExport text name
  | None => forall pre q1 name, ~ ExportAt text pre q1 name
  end.
Proof.
  unfold getProductName.
  pose proof (exec_spec productNamePattern text) as X.
  destruct (exec productNamePattern text) as [res|].
  - destruct X as (pre & post & -> & Hm & Hfirst).
    rewrite pattern_shape in Hm. apply matchNodes_chars in Hm.
    destruct Hm as (s & -> & Hm).
    pose proof (quoted_group_spec s) as Q. rewrite Hm in Q.
    destruct Q as (q1 & name & tail & -> & -> & Hq & Hg & Hprio).
    exists pre, q1. split.
    + apply ExportAt_GroupAt. now exists tail.
    + intros pre' q1' name' He. apply ExportAt_GroupAt in He.
      destruct He as (tail' & E & Hq' & Hg').
      assert (Hle : List.length pre <= List.length pre').
      { destruct (Nat.le_gt_cases (List.length pre) (List.length pre'))
          as [Hle|Hgt]; [exact Hle|].
        exfalso. apply (pattern_matches_export q1' tail' name' Hq' Hg').
        now apply (Hfirst pre'). }
      split; [exact Hle|]. intros Hlen.
      apply app_eq_length in E; [|now symmetry].
      destruct E as [_ E]. apply app_inv_head in E.
      now apply (Hprio q1' name' tail').
  - intros pre q1 name He. apply ExportAt_GroupAt in He.
    destruct He as (tail & -> & Hq & Hg).
    apply (pattern_matches_export q1 tail name Hq Hg).
    now apply (X pre).
Qed.

Lemma FirstExport_nonempty (text name : jsstring) :
  FirstExport text name -> truthy name = true.
Proof.
  intros (pre & q1 & (c & q2 & rest & _ & _ & _ & Hne & _) & _).
  destruct name; [congruence | reflexivity].
Qed.

Lemma ExportAt_same_place (text pre pre' q1 q1' name name' : jsstring) :
  ExportAt text pre q1 name -> ExportAt text pre' q1' name' ->
  List.length pre = List.length pre' -> List.length q1 = List.length q1' ->
  List.length name = List.length name' ->
  name = name'.
Proof.
  intros (c & q2 & rest & -> & _) (c' & q2' & rest' & E & _) Hp Hq Hn.
  apply app_eq_length in E; [|exact Hp]. destruct E as [_ E].
  apply app_inv_head in E.
  apply app_eq_length in E; [|exact Hq]. destruct E as [_ E].
  apply app_eq_length in E; [|exact Hn]. now destruct E.
Qed.

(** The first match is unique, so it determines the name. *)
Lemma FirstExport_unique (text name name' : jsstring) :
  FirstExport text name -> FirstExport text name' -> name = name'.
Proof.
  intros (pre & q1 & He & Hfirst) (pre' & q1' & He' & Hfirst').
  destruct (Hfirst _ _ _ He') as [Hp Hrest].
  destruct (Hfirst' _ _ _ He) as [Hp' Hrest'].
  assert (Hpe : List.length pre = List.length pre') by lia.
  destruct (Hrest (eq_sym Hpe)) as [Hq Hname].
  destruct (Hrest' Hpe) as [Hq' Hname'].
  assert (Hqe : List.length q1 = List.length q1') by lia.
  specialize (Hname (eq_sym Hqe)). specialize (Hname' Hqe).
  apply (ExportAt_same_place text pre pre' q1 q1' name name' He He' Hpe Hqe).
  lia.
Qed.

Lemma getProductName_iff (text name : jsstring) :
  getProductName text = Some name <-> FirstExport text name.
Proof.
  pose proof (getProductName_spec text) as G. split.
  - intros H. now rewrite H in G.
  - intros H. destruct (getProductName text) as [first|].
    + f_equal. now apply (FirstExport_unique text).
    + destruct H as (pre & q1 & He & _). now destruct (G pre q1 name).
Qed.

(** ** Completions and traces *)

Lemma completion_bind {A B} (m : M A) (f : A -> M B) :
  completion (bind m f)
  = match completion m with
    | Normal a => completion (f a)
    | Throw e => Throw e
    end.
Proof.
  destruct m as [t [a|e]]; simpl; [|reflexivity].
  now destruct (f a).
Qed.

Lemma trace_bind {A B} (m : M A) (f : A -> M B) :
  trace (bind m f)
  = match completion m with
    | Normal a => trace m ++ trace (f a)
    | Throw e => trace m
    end.
Proof.
  destruct m as [t [a|e]]; simpl; [|reflexivity].
  now destruct (f a).
Qed.

Lemma onData_completion (xcpretty : bool) (cs : list Chunk)
      (acc : jsstring * jsstring) :
  completion (onData xcpretty cs acc)
  = Normal (fst acc ++ stdoutText cs, snd acc ++ stderrText cs).
Proof.
  revert acc; induction cs as [|[data|data] cs IH]; intros [out err]; simpl.
  - now rewrite !app_nil_r.
  - rewrite completion_bind.
    replace (completion (if xcpretty then emit StdinWrite
                         else logger_info data)) with (Normal tt)
      by now destruct xcpretty.
    rewrite IH. simpl. now rewrite <- app_assoc.
  - rewrite IH. simpl. now rewrite <- app_assoc.
Qed.

Lemma xcpretty_choice_completion (w : World) (args : FlagsT) :
  exists b,
    completion
      (if negb (verbose args) then
         available <- xcprettyAvailable w ;;
         if available then emit (Spawn (lit "xcpretty") [] []) ;; ret true
         else ret false
       else ret false) = Normal b.
Proof.
  destruct (verbose args); simpl; [now exists false|].
  unfold xcprettyAvailable, do_execSync.
  destruct (execSync w (lit "xcpretty --version")); simpl;
    eexists; reflexivity.
Qed.

(** How the promise of [buildProject] settles. *)
Lemma buildProject_completion (w : World) (project : XcodeProject)
      (udid scheme : jsstring) (args : FlagsT) :
  completion (buildProject w project udid scheme args)
  = let child := buildChild w project udid scheme args in
    if nonZero (exitCode child) then
      Throw (CLIError (buildFailedMessage (exitCode child) project)
                      (Some (stderrText (chunks child))))
    else
      Normal (productNameOr (stdoutText (chunks child)) scheme).
Proof.
  unfold buildProject, buildChild.
  rewrite completion_bind. cbn [logger_info emit completion snd].
  rewrite completion_bind.
  destruct (xcpretty_choice_completion w args) as (b & ->).
  rewrite completion_bind. cbn [emit completion snd].
  rewrite completion_bind, onData_completion. cbn [fst snd app].
  unfold onClose. rewrite completion_bind.
  replace (completion (if b then emit StdinEnd else ret tt)) with (Normal tt)
    by now destruct b.
  now destruct (nonZero _).
Qed.

(** ** The artifact name *)

(** C4. The artifact name is a function of the text that the build wrote
    to its standard output and of the scheme alone: whatever the chunking
    of the output, the text on standard error, the flags and the project,
    a build that exits with 0 resolves to [productNameOr] of that text,
    so parsing the same text again gives the same name.  When no place of
    the text matches the FULL_PRODUCT_NAME export pattern the name is the
    scheme; when some place matches, the name is the group of the first
    match (leftmost start, then the greedy choices of the pattern), and
    [getProductName] returns a name exactly when it is that group. *)
Theorem artifact_name_extraction :
  (forall w project udid scheme args,
      exitCode (buildChild w project udid scheme args) = Some 0%Z ->
      completion (buildProject w project udid scheme args)
      = Normal (productNameOr
                  (stdoutText (chunks (buildChild w project udid scheme args)))
                  scheme))
  /\ (forall text scheme,
         (forall pre q1 name, ~ ExportAt text pre q1 name) ->
         productNameOr text scheme = scheme)
  /\ (forall text scheme pre q1 name,
         ExportAt text pre q1 name ->
         exists first,
           FirstExport text first
           /\ getProductName text = Some first
           /\ productNameOr text scheme = first)
  /\ (forall text first,
         getProductName text = Some first <-> FirstExport text first).
Proof.
  split; [|split; [|split]]; [| | |apply getProductName_iff].
  - intros w project udid scheme args Hcode.
    rewrite buildProject_completion. cbv zeta. now rewrite Hcode.
  - intros text scheme Hno. unfold productNameOr.
    pose proof (getProductName_spec text) as G.
    destruct (getProductName text) as [first|]; [|reflexivity].
    destruct G as (pre & q1 & He & _). now destruct (Hno pre q1 first).
  - intros text scheme pre q1 name He. unfold productNameOr.
    pose proof (getProductName_spec text) as G.
    destruct (getProductName text) as [first|].
    + exists first. split; [exact G|]. split; [reflexivity|].
      now rewrite (FirstExport_nonempty text first G).
    + now destruct (G pre q1 name).
Qed.

Lemma artifact_name_extraction_witness :
  completion (buildProject (sampleWorld goodAnswers) sampleProject
                (lit "SIM-1") (lit "MyApp") sampleFlags)
  = Normal (lit "MyProduct")
  /\ productNameOr (lit "** BUILD SUCCEEDED **") (lit "MyApp") = lit "MyApp"
  /\ exists first,
       FirstExport (lit "export FULL_PRODUCT_NAME=A.app") first
       /\ getProductName (lit "export FULL_PRODUCT_NAME=A.app") = Some first
       /\ productNameOr (lit "export FULL_PRODUCT_NAME=A.app") (lit "MyApp")
          = first.
Proof.
  destruct artifact_name_extraction as (Hpure & Hnone & Hfirst & _).
  split; [|split].
  - rewrite (Hpure (sampleWorld goodAnswers) sampleProject (lit "SIM-1")
               (lit "MyApp") sampleFlags eq_refl).
    reflexivity.
  - apply Hnone.
    exact (getProductName_spec (lit "** BUILD SUCCEEDED **")).
  - apply (Hfirst _ (lit "MyApp") [] [] (lit "A")).
    exists 46%N, [], []. repeat split; try (left; reflexivity).
    + discriminate.
    + repeat constructor.
Defined.

Lemma bind_throw {A B} (m : M A) (f : A -> M B) (e : Exn) :
  completion m = Throw e -> bind m f = (trace m, Throw e).
Proof. destruct m as [t [a|e']]; simpl; congruence. Qed.

Lemma bind_normal {A B} (m : M A) (f : A -> M B) (a : A) :
  completion m = Normal a ->
  bind m f = (trace m ++ trace (f a), completion (f a)).
Proof.
  destruct m as [t [a'|e']]; simpl; [|discriminate].
  intros [= ->]. now destruct (f a).
Qed.

Lemma nonZero_false (code : option Z) :
  nonZero code = false <-> code = Some 0%Z.
Proof.
  destruct code as [z|]; simpl; [|split; discriminate].
  rewrite negb_false_iff, Z.eqb_eq. split; congruence.
Qed.

Lemma nonZero_true (code : option Z) :
  nonZero code = true <-> code <> Some 0%Z.
Proof.
  rewrite <- nonZero_false. destruct (nonZero code); split; congruence.
Qed.

(** ** The boot step *)

Lemma bootSimulator_eq (w : World) (sim : Simulator) :
  bootSimulator w sim
  = ([Log Info (lit "Launching " ++ formatName (simName sim) (simVersion sim)
                ++ lit "...");
      SpawnSync (lit "xcrun") (bootArgs sim)],
     Normal tt).
Proof.
  unfold bootSimulator, do_spawnSync.
  destruct (spawnSync w (lit "xcrun") (bootArgs sim)); reflexivity.
Qed.

Lemma bootIfNeeded_completion (w : World) (sim : Simulator) :
  completion (bootIfNeeded w sim) = Normal tt.
Proof.
  unfold bootIfNeeded. destruct (booted sim); simpl; [reflexivity|].
  now rewrite bootSimulator_eq.
Qed.

Lemma runOnSimulator_from_build (w : World) (project : XcodeProject)
      (scheme : jsstring) (args : FlagsT) (sim : Simulator) :
  completion (selectSimulator w args) = Normal sim ->
  runOnSimulator w project scheme args
  = (trace (selectSimulator w args) ++ trace (bootIfNeeded w sim)
     ++ trace (appName <- buildProject w project (simUdid sim) scheme args ;;
               installAndLaunch w sim appName scheme args),
     completion
       (appName <- buildProject w project (simUdid sim) scheme args ;;
        installAndLaunch w sim appName scheme args)).
Proof.
  intros Hsel. unfold runOnSimulator.
  rewrite (bind_normal _ _ sim Hsel). fold (bootIfNeeded w sim).
  rewrite (bind_normal _ _ tt (bootIfNeeded_completion w sim)).
  reflexivity.
Qed.

(** ** The build step *)

Lemma onData_no_sync (xcpretty : bool) (cs : list Chunk)
      (acc : jsstring * jsstring) :
  Forall (fun ev => isSyncStep ev = false) (trace (onData xcpretty cs acc)).
Proof.
  revert acc; induction cs as [|[data|data] cs IH]; intros acc; simpl.
  - constructor.
  - rewrite trace_bind.
    assert (completion (if xcpretty then emit StdinWrite
                        else logger_info data) = Normal tt) as ->
      by now destruct xcpretty.
    apply Forall_app. split; [|apply IH].
    destruct xcpretty; repeat constructor.
  - apply IH.
Qed.

(** The build starts no synchronous subprocess: no install, launch or
    metadata step is part of it. *)
Lemma buildProject_no_sync (w : World) (project : XcodeProject)
      (udid scheme : jsstring) (args : FlagsT) :
  Forall (fun ev => isSyncStep ev = false)
         (trace (buildProject w project udid scheme args)).
Proof.
  unfold buildProject.
  rewrite trace_bind. cbn [logger_info emit completion trace fst snd].
  apply Forall_app. split; [repeat constructor|].
  rewrite trace_bind.
  destruct (xcpretty_choice_completion w args) as (b & Hb). rewrite Hb.
  apply Forall_app. split.
  - clear Hb. destruct (verbose args); simpl; [constructor|].
    unfold xcprettyAvailable, do_execSync.
    destruct (execSync w (lit "xcpretty --version")); simpl;
      repeat constructor.
  - rewrite trace_bind. cbn [emit completion trace fst snd].
    apply Forall_app. split; [repeat constructor|].
    rewrite trace_bind, onData_completion.
    apply Forall_app. split; [apply onData_no_sync|].
    unfold onClose. rewrite trace_bind.
    assert (completion (if b then emit StdinEnd else ret tt) = Normal tt)
      as -> by now destruct b.
    apply Forall_app. split; [destruct b; repeat constructor|].
    destruct (nonZero _); constructor.
Qed.

(** C6. [buildProject] resolves with an artifact name if and only if
    the build tool exits with code 0.  On any other exit code it rejects
    with a [CLIError] whose message holds the exit code and the hint to
    open the project in Xcode, and which carries the accumulated text of
    standard error; the run then rejects with that error and its trace
    ends with the events of the build, none of which is an install, a
    launch or any other synchronous subprocess, on the device path and
    on the simulator path. *)
Theorem build_failure_aborts (w : World) (project : XcodeProject)
        (scheme : jsstring) (args : FlagsT) :
  (forall udid,
      ((exists appName,
           completion (buildProject w project udid scheme args)
           = Normal appName)
       <-> exitCode (buildChild w project udid scheme args) = Some 0%Z)
      /\ (exitCode (buildChild w project udid scheme args) <> Some 0%Z ->
          completion (buildProject w project udid scheme args)
          = Throw (buildError (buildChild w project udid scheme args)
                              project))
      /\ Forall (fun ev => isSyncStep ev = false)
                (trace (buildProject w project udid scheme args)))
  /\ (forall code,
         exists before after,
           buildFailedMessage code project
           = before ++ showExitCode code ++ after
           /\ includes after
                (lit "consider building your app with Xcode.app, by opening")
              = true)
  /\ (forall selectedDevice,
         exitCode (buildChild w project (udid selectedDevice) scheme args)
         <> Some 0%Z ->
         runOnDevice w selectedDevice scheme project args
         = (trace (buildProject w project (udid selectedDevice) scheme args),
            Throw (buildError
                     (buildChild w project (udid selectedDevice) scheme args)
                     project)))
  /\ (forall sim,
         completion (selectSimulator w args) = Normal sim ->
         exitCode (buildChild w project (simUdid sim) scheme args)
         <> Some 0%Z ->
         runOnSimulator w project scheme args
         = (trace (selectSimulator w args) ++ trace (bootIfNeeded w sim)
            ++ trace (buildProject w project (simUdid sim) scheme args),
            Throw (buildError
                     (buildChild w project (simUdid sim) scheme args)
                     project))).
Proof.
  assert (Hfail : forall udid,
             exitCode (buildChild w project udid scheme args) <> Some 0%Z ->
             completion (buildProject w project udid scheme args)
             = Throw (buildError (buildChild w project udid scheme args)
                                 project)).
  { intros udid Hcode. rewrite buildProject_completion. cbv zeta.
    apply nonZero_true in Hcode. now rewrite Hcode. }
  split; [|split; [|split]].
  - intros udid. split; [|split].
    + rewrite buildProject_completion. cbv zeta.
      destruct (nonZero _) eqn:E.
      * split; [intros (n & H); discriminate|].
        intros H. apply nonZero_false in H. congruence.
      * split; [intros _; now apply nonZero_false|].
        intros _. eexists. reflexivity.
    + apply Hfail.
    + apply buildProject_no_sync.
  - intros code. unfold buildFailedMessage.
    exists (lit "
            Failed to build iOS project.

            We ran " ++ [dquote] ++ lit "xcodebuild" ++ [dquote]
            ++ lit " command but it exited with error code ").
    exists (lit ". To debug build
            logs further, consider building your app with Xcode.app, by opening
            " ++ projectName project ++ lit ".
          ").
    split.
    + now rewrite <- !app_assoc.
    + apply includes_iff.
      exists (lit ". To debug build
            logs further, ").
      exists (lit "
            " ++ projectName project ++ lit ".
          ").
      reflexivity.
  - intros sel Hcode. unfold runOnDevice.
    apply bind_throw. now apply Hfail.
  - intros sim Hsel Hcode.
    rewrite (runOnSimulator_from_build w project scheme args sim Hsel).
    now rewrite (bind_throw _ _ _ (Hfail _ Hcode)).
Qed.

Lemma build_failure_aborts_witness :
  runOnDevice (sampleWorld failedAnswers) iPhone8_13 (lit "MyApp")
    sampleProject sampleFlags
  = (trace (buildProject (sampleWorld failedAnswers) sampleProject
              (lit "AAAA-2") (lit "MyApp") sampleFlags),
     Throw (CLIError (buildFailedMessage (Some 65%Z) sampleProject)
                     (Some (lit "error: no such file main.m"))))
  /\ completion (runOnSimulator (sampleWorld failedAnswers) sampleProject
                   (lit "MyApp") sampleFlags)
     = Throw (CLIError (buildFailedMessage (Some 65%Z) sampleProject)
                       (Some (lit "error: no such file main.m"))).
Proof.
  destruct (build_failure_aborts (sampleWorld failedAnswers) sampleProject
              (lit "MyApp") sampleFlags) as (_ & _ & Hdev & Hsim).
  split.
  - rewrite (Hdev iPhone8_13); [reflexivity | discriminate].
  - rewrite (Hsim sampleSimulator); [reflexivity | reflexivity | discriminate].
Defined.

Lemma in_trace_bind {A B} (m : M A) (f : A -> M B) (ev : Event) :
  In ev (trace m) -> In ev (trace (bind m f)).
Proof.
  intros H. rewrite trace_bind. destruct (completion m); [|exact H].
  apply in_or_app. now left.
Qed.

Lemma buildProject_starts (w : World) (project : XcodeProject)
      (udid scheme : jsstring) (args : FlagsT) :
  In (buildStart project udid scheme args)
     (trace (buildProject w project udid scheme args)).
Proof.
  unfold buildProject.
  rewrite trace_bind. cbn [logger_info emit completion trace fst snd].
  apply in_or_app. right.
  rewrite trace_bind.
  destruct (xcpretty_choice_completion w args) as (b & ->).
  apply in_or_app. right.
  apply in_trace_bind. now left.
Qed.

(** C8, as the code has it.  On the simulator path the boot step
    surfaces nothing, whatever the boot-trigger subprocess does: whether
    [spawnSync] throws, reports that the child could not be started, or
    returns any exit status, [bootSimulator] completes normally after its
    own two events, and the run goes on with the build, whose start is in
    the trace and whose outcome alone decides how the run completes.  The
    wrapper swallows every failure of the boot tool, not only the exit
    status 255 that its comment names. *)
Theorem boot_failure_swallowed (w : World) (project : XcodeProject)
        (scheme : jsstring) (args : FlagsT) (sim : Simulator) :
  bootSimulator w sim = (bootEvents sim, Normal tt)
  /\ ~ Surfaces (bootSimulator w sim)
  /\ (completion (selectSimulator w args) = Normal sim ->
      booted sim = false ->
      runOnSimulator w project scheme args
      = (trace (selectSimulator w args) ++ bootEvents sim
         ++ trace (appName <- buildProject w project (simUdid sim)
                                           scheme args ;;
                   installAndLaunch w sim appName scheme args),
         completion
           (appName <- buildProject w project (simUdid sim) scheme args ;;
            installAndLaunch w sim appName scheme args))
      /\ In (buildStart project (simUdid sim) scheme args)
            (trace (runOnSimulator w project scheme args))).
Proof.
  split; [apply bootSimulator_eq|]. split.
  - rewrite bootSimulator_eq. intros [(e & H) | (msg & H)].
    + discriminate.
    + simpl in H. destruct H as [H | [H | []]]; discriminate.
  - intros Hsel Hboot.
    rewrite (runOnSimulator_from_build w project scheme args sim Hsel).
    unfold bootIfNeeded. rewrite Hboot. cbn [negb].
    rewrite bootSimulator_eq. split; [reflexivity|].
    cbn [trace fst]. apply in_or_app. right. apply in_or_app. right.
    apply in_trace_bind, buildProject_starts.
Qed.

Lemma boot_failure_swallowed_witness :
  completion (runOnSimulator (sampleWorld thrownBoot) sampleProject
                (lit "MyApp") sampleFlags) = Normal tt
  /\ In (buildStart sampleProject (lit "SIM-1") (lit "MyApp") sampleFlags)
        (trace (runOnSimulator (sampleWorld goodAnswers) sampleProject
                  (lit "MyApp") sampleFlags)).
Proof.
  split.
  - destruct (boot_failure_swallowed (sampleWorld thrownBoot) sampleProject
                (lit "MyApp") sampleFlags sampleSimulator)
      as (_ & _ & H).
    destruct (H eq_refl eq_refl) as [-> _]. reflexivity.
  - destruct (boot_failure_swallowed (sampleWorld goodAnswers) sampleProject
                (lit "MyApp") sampleFlags sampleSimulator)
      as (_ & _ & H).
    exact (proj2 (H eq_refl eq_refl)).
Defined.

(** C8 as the specification states it fails: a failure of the boot tool
    other than the known exit status is masked too.  When [spawnSync]
    throws, and when the tool cannot even be started, the boot step
    completes normally, no error is logged, and the run builds, installs
    and launches. *)
Lemma boot_wrapper_masks_other_failures :
  Failed (booting thrownBoot) /\ booting thrownBoot <> knownQuirk
  /\ ~ Surfaces (bootSimulator (sampleWorld thrownBoot) sampleSimulator)
  /\ ~ Surfaces (runOnSimulator (sampleWorld thrownBoot) sampleProject
                   (lit "MyApp") sampleFlags)
  /\ Failed (booting unspawnedBoot) /\ booting unspawnedBoot <> knownQuirk
  /\ ~ Surfaces (bootSimulator (sampleWorld unspawnedBoot) sampleSimulator)
  /\ ~ Surfaces (runOnSimulator (sampleWorld unspawnedBoot) sampleProject
                   (lit "MyApp") sampleFlags).
Proof.
  assert (Hno : forall m : M unit,
             completion m = Normal tt ->
             forallb (fun ev => match ev with Log Error _ => false
                                         | _ => true end) (trace m) = true ->
             ~ Surfaces m).
  { intros m Hc Ht [(e & H) | (msg & H)]; [congruence|].
    rewrite forallb_forall in Ht. specialize (Ht _ H). discriminate. }
  repeat split; try (simpl; auto; discriminate);
    try (apply Hno; vm_compute; reflexivity).
  right. discriminate.
Qed.

(** ** After the build *)

Lemma installAndLaunch_returns (w : World) (sim : Simulator)
      (appName scheme : jsstring) (args : FlagsT)
      (r1 r2 : SpawnSyncReturns) (plist : jsstring) :
  let appPath := getBuildPath (configuration args) appName false scheme in
  spawnSync w (lit "xcrun") (installArgs sim appPath) = Returned r1 ->
  execFileSync w (lit "/usr/libexec/PlistBuddy") (plistArgs w appPath)
  = Normal plist ->
  spawnSync w (lit "xcrun") (launchArgs sim (trim plist)) = Returned r2 ->
  installAndLaunch w sim appName scheme args
  = (installLaunchEvents w sim appPath plist, Normal tt).
Proof.
  intros appPath H1 H2 H3.
  unfold installAndLaunch, do_spawnSync, do_execFileSync. fold appPath.
  cbn [logger_info emit bind]. rewrite H1. cbn [ret bind app].
  rewrite H2. cbn [bind app]. rewrite H3. reflexivity.
Qed.

Lemma installOnDevice_returns (w : World) (selectedDevice : Device)
      (appName scheme : jsstring) (args : FlagsT) (r : SpawnSyncReturns) :
  let appPath := getBuildPath (configuration args) appName true scheme in
  spawnSync w (lit "ios-deploy") (iosDeployInstallArgs selectedDevice appPath)
  = Returned r ->
  installOnDevice w selectedDevice appName scheme args
  = (deployEvents selectedDevice appPath r, Normal tt).
Proof.
  intros appPath H.
  unfold installOnDevice, do_spawnSync, deployEvents. fold appPath.
  cbn [logger_info emit bind]. rewrite H. cbn [ret bind app].
  now destruct (error r).
Qed.

(** C9, as the code has it.  After a successful build, an install or
    launch subprocess that returns a failure, whether a non-zero status
    or an error of spawning, aborts no later step and raises nothing past
    the run.  On the simulator path, provided the read of the bundle
    identifier returns, the install, the read and the launch all run, the
    run completes normally, and it logs nothing but its two
    informational lines, whatever the results of install and launch.  On
    the device path the run completes normally after the installer
    returns; it logs the installation as failed, with the advice to
    install ios-deploy, exactly when the result carries a spawn error,
    and logs it as succeeded otherwise. *)
Theorem post_build_failures_do_not_abort (w : World)
        (project : XcodeProject) (scheme : jsstring) (args : FlagsT) :
  (forall sim appName r1 plist r2,
      let appPath := getBuildPath (configuration args) appName false scheme in
      completion (selectSimulator w args) = Normal sim ->
      completion (buildProject w project (simUdid sim) scheme args)
      = Normal appName ->
      spawnSync w (lit "xcrun") (installArgs sim appPath) = Returned r1 ->
      execFileSync w (lit "/usr/libexec/PlistBuddy") (plistArgs w appPath)
      = Normal plist ->
      spawnSync w (lit "xcrun") (launchArgs sim (trim plist)) = Returned r2 ->
      runOnSimulator w project scheme args
      = (trace (selectSimulator w args) ++ trace (bootIfNeeded w sim)
         ++ trace (buildProject w project (simUdid sim) scheme args)
         ++ installLaunchEvents w sim appPath plist,
         Normal tt))
  /\ (forall selectedDevice appName r,
         let appPath :=
           getBuildPath (configuration args) appName true scheme in
         completion (buildProject w project (udid selectedDevice) scheme args)
         = Normal appName ->
         spawnSync w (lit "ios-deploy")
                   (iosDeployInstallArgs selectedDevice appPath)
         = Returned r ->
         runOnDevice w selectedDevice scheme project args
         = (trace (buildProject w project (udid selectedDevice) scheme args)
            ++ deployEvents selectedDevice appPath r,
            Normal tt)).
Proof.
  split.
  - intros sim appName r1 plist r2 appPath Hsel Hbuild H1 H2 H3.
    rewrite (runOnSimulator_from_build w project scheme args sim Hsel).
    rewrite (bind_normal _ _ appName Hbuild).
    rewrite (installAndLaunch_returns w sim appName scheme args r1 r2 plist
               H1 H2 H3).
    reflexivity.
  - intros sel appName r appPath Hbuild H.
    unfold runOnDevice. rewrite (bind_normal _ _ appName Hbuild).
    rewrite (installOnDevice_returns w sel appName scheme args r H).
    reflexivity.
Qed.

Lemma post_build_failures_do_not_abort_witness :
  completion (runOnSimulator (sampleWorld failedInstall) sampleProject
                (lit "MyApp") sampleFlags) = Normal tt
  /\ runOnDevice (sampleWorld missingDeploy) iPhone8_13 (lit "MyApp")
       sampleProject sampleFlags
     = (trace (buildProject (sampleWorld missingDeploy) sampleProject
                 (lit "AAAA-2") (lit "MyApp") sampleFlags)
        ++ [Log Info (lit "Installing and launching your app on iPhone 8...");
            SpawnSync (lit "ios-deploy")
              (iosDeployInstallArgs iPhone8_13
                 (lit "build/MyApp/Build/Products/Debug-iphoneos/"
                  ++ lit "MyProduct.app"));
            Log Error installationFailed],
        Normal tt).
Proof.
  split.
  - destruct (post_build_failures_do_not_abort (sampleWorld failedInstall)
                sampleProject (lit "MyApp") sampleFlags) as [H _].
    rewrite (H sampleSimulator (lit "MyProduct")
               (mkReturns (Some 1%Z) None)
               (lit "org.example.MyProduct" ++ [10%N])
               (mkReturns (Some 1%Z) None));
      reflexivity.
  - destruct (post_build_failures_do_not_abort (sampleWorld missingDeploy)
                sampleProject (lit "MyApp") sampleFlags) as [_ H].
    rewrite (H iPhone8_13 (lit "MyProduct")
               (mkReturns None (Some (lit "spawnSync ios-deploy ENOENT"))));
      reflexivity.
Defined.

(** C9 as the specification states it fails.  On the simulator path an
    install and a launch that both exit with 1 are not reported: the run
    logs no error.  On the device path an installer that exits with 1 is
    logged as a success.  And after a successful build the read of the
    bundle identifier, which is not the build step, aborts the run when
    it fails: the launch does not run and the run rejects. *)
Lemma post_build_failures_unreported :
  Failed (installing failedInstall) /\ Failed (launching failedInstall)
  /\ completion (runOnSimulator (sampleWorld failedInstall) sampleProject
                   (lit "MyApp") sampleFlags) = Normal tt
  /\ noErrorLogged (trace (runOnSimulator (sampleWorld failedInstall)
                             sampleProject (lit "MyApp") sampleFlags))
     = true
  /\ Failed (deploying failedInstall)
  /\ last (trace (runOnDevice (sampleWorld failedInstall) iPhone8_13
                    (lit "MyApp") sampleProject sampleFlags))
          StdinEnd
     = Log Info (lit "** INSTALLATION SUCCEEDED **")
  /\ completion (buildProject (sampleWorld failedRead) sampleProject
                   (lit "SIM-1") (lit "MyApp") sampleFlags)
     = Normal (lit "MyProduct")
  /\ completion (runOnSimulator (sampleWorld failedRead) sampleProject
                   (lit "MyApp") sampleFlags)
     = Throw (NodeError (lit "Command failed: /usr/libexec/PlistBuddy"))
  /\ ~ In (SpawnSync (lit "xcrun")
             (launchArgs sampleSimulator (lit "org.example.MyProduct")))
          (trace (runOnSimulator (sampleWorld failedRead) sampleProject
                    (lit "MyApp") sampleFlags)).
Proof.
  repeat split; try (vm_compute; reflexivity);
    try (simpl; left; discriminate).
  vm_compute. intuition discriminate.
Qed.

(** ** The command *)

Lemma firstn_snoc_nth {A} (l : list A) (i : nat) (d : A) :
  nth_error l i = Some d -> firstn (S i) l = firstn i l ++ [d].
Proof.
  revert i; induction l as [|x l IH]; intros [|i] H; simpl in *;
    try discriminate.
  - now injection H as ->.
  - now rewrite <- (IH i H).
Qed.

Lemma printDown_lines (devices : list Device) (n : nat) (output : jsstring) :
  n <= List.length devices ->
  printDown devices n output
  = output ++ flat_map deviceLine (rev (firstn n devices)).
Proof.
  revert output; induction n as [|i IH]; intros output Hn; cbn [printDown].
  - now rewrite firstn_O, app_nil_r.
  - destruct (nth_error devices i) as [d|] eqn:E.
    + rewrite IH by lia. rewrite (firstn_snoc_nth _ _ _ E), rev_app_distr.
      cbn [rev app flat_map]. unfold deviceLine. now rewrite <- !app_assoc.
    + apply nth_error_None in E. lia.
Qed.

(** Every device is printed, on a line of its own, last device first. *)
Lemma printFoundDevices_lines (devices : list Device) :
  printFoundDevices devices = flat_map deviceLine (rev devices).
Proof.
  unfold printFoundDevices.
  rewrite printDown_lines by lia. now rewrite firstn_all.
Qed.

Lemma selectDevice_none_silent (devices : list Device) (device : FlagValue)
      (udid : option jsstring) :
  completion (selectDevice devices device udid) = Normal None ->
  selectDevice devices device udid = ([], Normal None).
Proof.
  assert (Hret : forall x : option Device,
             completion (ret x) = Normal None -> ret x = ([], Normal None))
    by (intros x [= ->]; reflexivity).
  unfold selectDevice, matchingDevice.
  destruct (flagTruthy device); [|apply Hret].
  destruct device as [|s|]; try apply Hret.
  destruct devices as [|d [|d' l]]; try apply Hret.
  discriminate.
Qed.

(** C7. When a device or udid selector is given and the selection finds
    no device (the command having entered the project folder, found the
    project and enumerated the devices, as it must have to select), the
    run ends normally right after one error line, having started no
    subprocess but the enumeration of the devices: no build is
    attempted.  For a non-empty candidate list the line is the "choose
    one of" diagnostic followed by one line for every candidate; for an
    empty list it is the message "No iOS devices connected." and nothing
    else. *)
Theorem no_match_stops_before_build
        (w : World) (args : FlagsT) (files : list jsstring)
        (project : XcodeProject) (listing : jsstring) :
  fs_existsSync w (projectPath args) = true ->
  process_chdir w (projectPath args) = Normal tt ->
  fs_readdirSync w (lit ".") = Normal files ->
  findXcodeProject w files = Some project ->
  execFileSync w (lit "xcrun") [lit "instruments"; lit "-s"]
  = Normal listing ->
  flagTruthy (device args) || optTruthy (udidFlag args) = true ->
  completion (selectDevice (parseIOSDevicesList w listing) (device args)
                (udidFlag args)) = Normal None ->
  runIOS w args
  = (preludeEvents args project
     ++ [Log Error (notFoundReport (parseIOSDevicesList w listing)
                      (device args) (udidFlag args))],
     Normal tt)
  /\ (parseIOSDevicesList w listing = [] ->
      notFoundReport (parseIOSDevicesList w listing) (device args)
        (udidFlag args)
      = lit "No iOS devices connected.")
  /\ (parseIOSDevicesList w listing <> [] ->
      exists kind wanted,
        notFoundReport (parseIOSDevicesList w listing) (device args)
          (udidFlag args)
        = chooseHeader kind wanted
          ++ flat_map deviceLine (rev (parseIOSDevicesList w listing))).
Proof.
  intros Hdir Hcd Hfiles Hproj Hlist Hsel Hnone.
  split; [|split].
  - unfold runIOS. rewrite Hdir. cbn [negb].
    unfold do_chdir, do_readdirSync. rewrite Hcd, Hfiles.
    cbn [emit bind app]. rewrite Hproj.
    unfold do_execFileSync. rewrite Hlist, Hsel.
    cbn [emit logger_info bind app].
    rewrite (selectDevice_none_silent _ _ _ Hnone). reflexivity.
  - intros ->. reflexivity.
  - intros Hne. unfold notFoundReport, nonEmpty.
    destruct (parseIOSDevicesList w listing) as [|d l] eqn:E;
      [congruence|].
    cbn [List.length Nat.ltb Nat.leb].
    unfold notFoundMessage. rewrite printFoundDevices_lines.
    destruct (flagTruthy (device args)); eexists; eexists;
      unfold chooseHeader; rewrite <- !app_assoc; reflexivity.
Qed.

Lemma no_match_stops_before_build_witness :
  runIOS (sampleWorld twoPhones) wantIPad
  = (preludeEvents wantIPad sampleProject
     ++ [Log Error
           (chooseHeader (lit "name") (lit "iPad")
            ++ lit "iPhone 8 Udid: AAAA-2" ++ [10%N]
            ++ lit "iPhone 8 Udid: AAAA-1" ++ [10%N])],
     Normal tt)
  /\ runIOS (sampleWorld goodAnswers) wantAny
     = (preludeEvents wantAny sampleProject
        ++ [Log Error (lit "No iOS devices connected.")],
        Normal tt).
Proof.
  split.
  - destruct (no_match_stops_before_build (sampleWorld twoPhones) wantIPad
                [lit "MyApp.xcodeproj"] sampleProject
                (lit "/Applications/Xcode.app/Contents/Developer" ++ [10%N])
                eq_refl eq_refl eq_refl eq_refl eq_refl eq_refl eq_refl)
      as [-> _].
    reflexivity.
  - destruct (no_match_stops_before_build (sampleWorld goodAnswers) wantAny
                [lit "MyApp.xcodeproj"] sampleProject
                (lit "/Applications/Xcode.app/Contents/Developer" ++ [10%N])
                eq_refl eq_refl eq_refl eq_refl eq_refl eq_refl eq_refl)
      as [-> _].
    reflexivity.
Defined.

(** C10. When [args.device] is truthy, [args.udid] plays no part in the
    run: the device is chosen by [matchingDevice] on the name selector,
    the not-found diagnostic is the one of the name selector, and the
    whole run, its trace and its completion, is the same for every value
    of [args.udid], for every device list. *)
Theorem name_selector_overrides_udid
        (w : World) (args : FlagsT) (u : option jsstring) :
  flagTruthy (device args) = true ->
  (forall devices,
      selectDevice devices (device args) u
      = matchingDevice devices (device args)
      /\ notFoundReport devices (device args) u
         = if nonEmpty devices
           then notFoundMessage (lit "name") (showFlag (device args)) devices
           else lit "No iOS devices connected.")
  /\ runIOS w (withUdid args u) = runIOS w args.
Proof.
  intros Hdev. split.
  - intros devices. unfold selectDevice, notFoundReport.
    now rewrite Hdev.
  - unfold runIOS, selectDevice, notFoundReport.
    cbn [withUdid projectPath scheme device udidFlag].
    rewrite Hdev. reflexivity.
Qed.

Lemma name_selector_overrides_udid_witness :
  runIOS (sampleWorld twoPhones) (withUdid wantIPad (Some (lit "AAAA-2")))
  = runIOS (sampleWorld twoPhones) wantIPad
  /\ completion
       (selectDevice [iPhone8_12; iPhone8_13]
          (FlagString (lit "iPhone 8 (12.0)")) (Some (lit "AAAA-2")))
     = Normal (Some iPhone8_12).
Proof.
  split.
  - exact (proj2 (name_selector_overrides_udid (sampleWorld twoPhones)
                    wantIPad (Some (lit "AAAA-2")) eq_refl)).
  - reflexivity.
Defined.

(** ** The scenarios of the specification *)

(** Scenario B: with no device connected and neither selector given, the
    command takes the simulator path and completes. *)
Example scenario_B :
  completion (runIOS (sampleWorld goodAnswers) sampleFlags) = Normal tt
  /\ In (SpawnSync (lit "xcrun")
           (launchArgs sampleSimulator (lit "org.example.MyProduct")))
        (trace (runIOS (sampleWorld goodAnswers) sampleFlags)).
Proof. split; [reflexivity | vm_compute; tauto]. Qed.

(** Scenario C: the build tool exits with 65; the run rejects with the
    text of standard error, and starts no synchronous subprocess after
    the boot. *)
Example scenario_C :
  completion (runIOS (sampleWorld failedAnswers) sampleFlags)
  = Throw (CLIError (buildFailedMessage (Some 65%Z) sampleProject)
                    (Some (lit "error: no such file main.m")))
  /\ last (filter isSyncStep
                  (trace (runIOS (sampleWorld failedAnswers) sampleFlags)))
          StdinEnd
     = SpawnSync (lit "xcrun") (bootArgs sampleSimulator).
Proof. split; reflexivity. Qed.

(** Scenario D: the boot trigger exits with 255; the run goes on and
    completes. *)
Example scenario_D :
  booting goodAnswers = knownQuirk
  /\ runIOS (sampleWorld goodAnswers) sampleFlags
     = runIOS (sampleWorld thrownBoot) sampleFlags
  /\ completion (runIOS (sampleWorld goodAnswers) sampleFlags) = Normal tt.
Proof. repeat split; reflexivity. Qed.

(* ================================================================= *)
(** * Further properties *)

(** ** Device selection *)

Lemma find_app_first {A} (f : A -> bool) (l l' : list A) :
  find f (l ++ l')
  = match find f l with
    | Some x => Some x
    | None => find f l'
    end.
Proof.
  induction l as [|x l IH]; simpl; [reflexivity|].
  now destruct (f x).
Qed.

Lemma scanDown_append (test : Device -> bool) (l l' : list Device) :
  scanDown test (l ++ l') (List.length (l ++ l'))
  = match scanDown test l' (List.length l') with
    | Some d => Some d
    | None => scanDown test l (List.length l)
    end.
Proof.
  rewrite !scanDown_find, rev_app_distr. apply find_app_first.
Qed.

Lemma scanDown_member (test : Device -> bool) (l : list Device) (d : Device) :
  scanDown test l (List.length l) = Some d -> In d l /\ test d = true.
Proof.
  rewrite scanDown_find. intros H. apply find_some in H.
  destruct H as [Hin Ht]. split; [now apply in_rev|exact Ht].
Qed.

(** X1. Of two device lists put end to end the later one takes
    precedence: a match in the appended list is returned, and only when
    it has none is the first list searched.  This holds for the search by
    udid and for the search by a literal name. *)
Theorem matching_prefers_appended (l l' : list Device) (u sel : jsstring) :
  matchingDeviceByUdid (l ++ l') (Some u)
  = match matchingDeviceByUdid l' (Some u) with
    | Some d => Some d
    | None => matchingDeviceByUdid l (Some u)
    end
  /\ matchingDevice (l ++ l') (FlagString sel)
     = match completion (matchingDevice l' (FlagString sel)) with
       | Normal (Some d) => ([], Normal (Some d))
       | _ => matchingDevice l (FlagString sel)
       end.
Proof.
  split.
  - unfold matchingDeviceByUdid. apply scanDown_append.
  - unfold matchingDevice. cbn [completion ret snd].
    rewrite scanDown_append.
    now destruct (scanDown _ l' (List.length l')).
Qed.

(** X2. Whatever the selectors, a device that [selectDevice] returns is
    one of the enumerated devices and satisfies the selector in force:
    the name selector when [device] is truthy (the only device, for a
    bare flag), the udid otherwise.  With neither selector defined
    nothing is selected. *)
Theorem selected_device_is_listed (devices : list Device)
        (device : FlagValue) (udid' : option jsstring) :
  (forall d,
      completion (selectDevice devices device udid') = Normal (Some d) ->
      In d devices /\ Selects device udid' devices d)
  /\ selectDevice devices FlagUndefined None = ([], Normal None).
Proof.
  split.
  - intros d. unfold selectDevice, Selects.
    destruct device as [|sel|]; cbn [flagTruthy].
    + cbn [completion ret snd]. intros [= H]. unfold matchingDeviceByUdid in H.
      apply scanDown_member in H. destruct H as [Hin Ht]. split; [exact Hin|].
      destruct udid' as [u|]; [|discriminate].
      apply eqOpt_some in Ht. now rewrite Ht.
    + destruct (truthy sel).
      * unfold matchingDevice. cbn [completion ret snd]. intros [= H].
        apply scanDown_member in H. destruct H as [Hin Ht].
        split; [exact Hin|]. now apply nameTest_iff.
      * cbn [completion ret snd]. intros [= H].
        unfold matchingDeviceByUdid in H.
        apply scanDown_member in H. destruct H as [Hin Ht].
        split; [exact Hin|].
        destruct udid' as [u|]; [|discriminate].
        apply eqOpt_some in Ht. now rewrite Ht.
    + unfold matchingDevice.
      destruct devices as [|d0 [|d1 l]]; cbn [completion ret snd bind
                                                logger_info emit].
      * discriminate.
      * intros [= ->]. split; [now left | reflexivity].
      * rewrite scanDown_never. discriminate.
  - unfold selectDevice, matchingDeviceByUdid. cbn [flagTruthy].
    unfold ret. f_equal. f_equal.
    apply scanDown_none. apply Forall_forall. intros; reflexivity.
Qed.

Lemma selected_device_is_listed_witness :
  In iPhone8_13 [iPhone8_12; iPhone8_13]
  /\ Selects FlagUndefined (Some (lit "AAAA-2")) [iPhone8_12; iPhone8_13]
       iPhone8_13.
Proof.
  apply (proj1 (selected_device_is_listed [iPhone8_12; iPhone8_13]
                  FlagUndefined (Some (lit "AAAA-2")))).
  reflexivity.
Defined.

(** X3. [printFoundDevices] prints nothing for no device, one line
    ["<name> Udid: <udid>"] for one device, and for two lists put end to
    end the lines of the second list followed by the lines of the first:
    every device has its line, last device first. *)
Theorem printFoundDevices_append (l l' : list Device) (d : Device) :
  printFoundDevices [] = []
  /\ printFoundDevices [d] = name d ++ lit " Udid: " ++ udid d ++ [10%N]
  /\ printFoundDevices (l ++ l')
     = printFoundDevices l' ++ printFoundDevices l.
Proof.
  split; [reflexivity|]. split.
  - rewrite printFoundDevices_lines. cbn [rev app flat_map].
    unfold deviceLine. now rewrite app_nil_r.
  - rewrite !printFoundDevices_lines, rev_app_distr. apply flat_map_app.
Qed.

(** ** The product name *)

Lemma line_end_unique (a a' r r' : jsstring) :
  a ++ r = a' ++ r' -> NoTerminator a -> NoTerminator a' ->
  AtLineEnd r -> AtLineEnd r' -> a = a' /\ r = r'.
Proof.
  assert (Hhead : forall x (l t : jsstring),
             isLineTerminator x = false -> AtLineEnd t ->
             t <> x :: l).
  { intros x l t Hx [-> | (c & r0 & -> & Hc)]; [discriminate|].
    intros [= -> _]. congruence. }
  revert a'; induction a as [|x a IH]; intros [|y a'] E Ha Ha' Hr Hr';
    simpl in E.
  - auto.
  - exfalso. apply (Hhead y (a' ++ r') r); auto. now inversion Ha'.
  - exfalso. apply (Hhead x (a ++ r) r'); auto. now inversion Ha.
  - injection E as -> E.
    destruct (IH a' E) as [-> ->]; auto.
    + now apply Forall_inv_tail in Ha.
    + now apply Forall_inv_tail in Ha'.
Qed.

Lemma last_app_cons {A} (l l' : list A) (x d : A) :
  last (l ++ x :: l') d = last (x :: l') d.
Proof.
  induction l as [|y l IH]; [reflexivity|].
  change ((y :: l) ++ x :: l') with (y :: (l ++ x :: l')).
  cbn [last]. destruct (l ++ x :: l') eqn:E; [|exact IH].
  now destruct l.
Qed.

Lemma NoTerminator_app (a b : jsstring) :
  NoTerminator (a ++ b) <-> NoTerminator a /\ NoTerminator b.
Proof. apply Forall_app. Qed.

Lemma OptQuote_NoTerminator (q : jsstring) : OptQuote q -> NoTerminator q.
Proof. intros [-> | ->]; repeat constructor. Qed.

Lemma app_NoTerminator : NoTerminator (lit "app").
Proof. repeat constructor. Qed.

(** The part of a match that lies on the line has no line terminator. *)
Lemma match_line_NoTerminator (q1 name q2 : jsstring) (c : N) :
  OptQuote q1 -> NoTerminator name -> isLineTerminator c = false ->
  OptQuote q2 ->
  NoTerminator (q1 ++ name ++ (c :: lit "app") ++ q2).
Proof.
  intros H1 Hn Hc H2.
  repeat (apply NoTerminator_app; split);
    auto using OptQuote_NoTerminator.
  constructor; [exact Hc | apply app_NoTerminator].
Qed.

Lemma indexOf_first (s p : jsstring) (n : nat) :
  indexOf s p = Some n ->
  forall pre post, s = pre ++ p ++ post -> n <= List.length pre.
Proof.
  revert n; induction s as [|x s IH]; intros n H pre post E;
    cbn [indexOf] in H.
  - destruct (startsWith [] p); [|discriminate].
    injection H as <-. lia.
  - destruct (startsWith (x :: s) p) eqn:Hs.
    + injection H as <-. lia.
    + destruct pre as [|y pre].
      * exfalso. assert (startsWith (x :: s) p = true)
          by (apply startsWith_iff; now exists post).
        congruence.
      * injection E as -> E.
        destruct (indexOf s p) as [m|]; [|discriminate].
        injection H as <-. specialize (IH m eq_refl pre post E).
        simpl. lia.
Qed.

(** X4. The exported name is read back exactly.  Take a non-empty name
    without a line terminator, and a build output whose first occurrence
    of [export FULL_PRODUCT_NAME=] is followed by [<name><c>app] and the
    end of the line, [c] being any character of the line (a dot in what
    the build tool prints).  Then [getProductName] gives the name: in the
    quoted form always, in the bare form when the name does not itself
    start with a double quote.  What follows the end of that line, later
    exports included, plays no part. *)
Theorem product_name_round_trip (before name rest : jsstring) (c : N) :
  name <> [] -> NoTerminator name -> isLineTerminator c = false ->
  AtLineEnd rest ->
  (hd_error name <> Some dquote ->
   indexOf (before ++ exportPrefix ++ name ++ (c :: lit "app") ++ rest)
           exportPrefix
   = Some (List.length before) ->
   getProductName (before ++ exportPrefix ++ name ++ (c :: lit "app") ++ rest)
   = Some name)
  /\ (indexOf (before ++ exportPrefix ++ [dquote] ++ name
               ++ (c :: lit "app") ++ [dquote] ++ rest)
              exportPrefix
      = Some (List.length before) ->
      getProductName
        (before ++ exportPrefix ++ [dquote] ++ name ++ (c :: lit "app")
         ++ [dquote] ++ rest)
      = Some name).
Proof.
  intros Hne Hname Hc Hrest.
  assert (Hlen : forall (q1 q1' q2 q2' pre' name' rest' : jsstring) (c' : N),
             OptQuote q1 -> OptQuote q2 ->
             before ++ exportPrefix ++ q1 ++ name ++ (c :: lit "app")
             ++ q2 ++ rest
             = pre' ++ exportPrefix ++ q1' ++ name' ++ c' :: lit "app"
               ++ q2' ++ rest' ->
             List.length pre' = List.length before ->
             OptQuote q1' -> OptQuote q2' -> NoTerminator name' ->
             isLineTerminator c' = false -> AtLineEnd rest' ->
             q1' ++ name' ++ (c' :: lit "app") ++ q2'
             = q1 ++ name ++ (c :: lit "app") ++ q2).
  { intros q1 q1' q2 q2' pre' name' rest' c' H1 H2 E Hpre H1' H2' Hn' Hc' Hr'.
    symmetry in E. apply app_eq_length in E; [|exact Hpre].
    destruct E as [_ E]. apply app_inv_head in E.
    apply (line_end_unique _ _ rest' rest).
    - rewrite <- !app_assoc. exact E.
    - now apply match_line_NoTerminator.
    - now apply match_line_NoTerminator.
    - exact Hr'.
    - exact Hrest. }
  split.
  - intros Hhd Hfirst. apply getProductName_iff. exists before, []. split.
    + exists c, [], rest. repeat split; auto; now left.
    + intros pre' q1' name' (c' & q2' & rest' & E & H1' & H2' & Hne' & Hn'
                              & Hc' & Hr').
      split; [exact (indexOf_first _ _ _ Hfirst pre' _ E)|]. intros Hpre.
      pose proof (Hlen [] q1' [] q2' pre' name' rest' c'
                    (or_introl eq_refl) (or_introl eq_refl)) as L.
      cbn [app] in L. rewrite app_nil_r in L.
      specialize (L E Hpre H1' H2' Hn' Hc' Hr').
      destruct H1' as [-> | ->].
      * split; [simpl; lia|]. intros _.
        apply (f_equal (@List.length N)) in L.
        repeat first [ rewrite length_app in L
                     | progress cbn [List.length app] in L ].
        lia.
      * exfalso. apply Hhd.
        destruct name as [|x name0]; [congruence|].
        cbn [app] in L. now injection L as <- _.
  - intros Hfirst. apply getProductName_iff. exists before, [dquote]. split.
    + exists c, [dquote], rest. repeat split; auto; now right.
    + intros pre' q1' name' (c' & q2' & rest' & E & H1' & H2' & Hne' & Hn'
                              & Hc' & Hr').
      split; [exact (indexOf_first _ _ _ Hfirst pre' _ E)|]. intros Hpre.
      split; [now apply OptQuote_length|]. intros Hq.
      pose proof (Hlen [dquote] q1' [dquote] q2' pre' name' rest' c'
                    (or_intror eq_refl) (or_intror eq_refl)) as L.
      specialize (L E Hpre H1' H2' Hn' Hc' Hr').
      destruct H2' as [-> | ->].
      * exfalso. rewrite app_nil_r in L.
        apply (f_equal (fun l => last l 0%N)) in L.
        assert (Hl : last (q1' ++ name' ++ c' :: lit "app") 0%N = 112%N)
          by (rewrite app_assoc; apply last_app_cons).
        assert (Hr : last ([dquote] ++ name ++ (c :: lit "app") ++ [dquote])
                          0%N = dquote)
          by (rewrite !app_assoc; apply last_last).
        rewrite Hl, Hr in L. discriminate.
      * apply (f_equal (@List.length N)) in L.
        repeat first [ rewrite length_app in L
                     | progress cbn [List.length app] in L ].
        rewrite Hq in L. cbn [List.length] in L. lia.
Qed.

Lemma product_name_round_trip_witness :
  getProductName (lit "CompileC main.m" ++ [10%N] ++ lit "    "
                  ++ exportPrefix ++ lit "My App" ++ (46%N :: lit "app")
                  ++ [10%N] ++ exportPrefix ++ lit "Other.app")
  = Some (lit "My App").
Proof.
  rewrite (app_assoc (lit "CompileC main.m")), (app_assoc _ (lit "    ")).
  apply (proj1 (product_name_round_trip
                  ((lit "CompileC main.m" ++ [10%N]) ++ lit "    ")
                  (lit "My App")
                  ([10%N] ++ exportPrefix ++ lit "Other.app") 46%N
                  ltac:(discriminate) ltac:(repeat constructor) eq_refl
                  ltac:(right; eexists; eexists; split; reflexivity))).
  - discriminate.
  - reflexivity.
Defined.

(** X5. A name that [getProductName] returns is never empty, has no
    line terminator, and stands in the build output right after the
    export prefix and its optional quote; so the artifact name that the
    build resolves to is never empty when the scheme is not. *)
Theorem product_name_is_a_line_part (text scheme : jsstring) :
  (forall n,
      getProductName text = Some n ->
      n <> [] /\ NoTerminator n
      /\ exists pre q1 post,
           text = pre ++ exportPrefix ++ q1 ++ n ++ post /\ OptQuote q1)
  /\ (scheme <> [] -> productNameOr text scheme <> []).
Proof.
  assert (Hn : forall n,
             getProductName text = Some n ->
             n <> [] /\ NoTerminator n
             /\ exists pre q1 post,
                  text = pre ++ exportPrefix ++ q1 ++ n ++ post
                  /\ OptQuote q1).
  { intros n H. apply getProductName_iff in H.
    destruct H as (pre & q1 & (c & q2 & rest & -> & H1 & H2 & Hne & Hnt & _)
                   & _).
    repeat split; auto.
    exists pre, q1, (c :: lit "app" ++ q2 ++ rest). auto. }
  split; [exact Hn|].
  intros Hs. unfold productNameOr.
  destruct (getProductName text) as [n|] eqn:E; [|exact Hs].
  destruct (Hn n eq_refl) as [Hne _].
  destruct n; [congruence | simpl; discriminate].
Qed.

Lemma product_name_is_a_line_part_witness :
  (lit "MyProduct" <> [] /\ NoTerminator (lit "MyProduct")
   /\ exists pre q1 post,
        exportingOutput
        = pre ++ exportPrefix ++ q1 ++ lit "MyProduct" ++ post
        /\ OptQuote q1)
  /\ productNameOr exportingOutput (lit "MyApp") <> []
  /\ productNameOr (lit "** BUILD SUCCEEDED **") (lit "MyApp") <> [].
Proof.
  split; [|split].
  - apply (proj1 (product_name_is_a_line_part exportingOutput (lit "MyApp"))
             (lit "MyProduct")).
    reflexivity.
  - apply (proj2 (product_name_is_a_line_part exportingOutput (lit "MyApp"))).
    discriminate.
  - apply (proj2 (product_name_is_a_line_part (lit "** BUILD SUCCEEDED **")
                    (lit "MyApp"))).
    discriminate.
Defined.

(** ** The build *)


Lemma xcpretty_choice_eq (w : World) (args : FlagsT) :
  (if negb (verbose args) then
     available <- xcprettyAvailable w ;;
     if available then emit (Spawn (lit "xcpretty") [] []) ;; ret true
     else ret false
   else ret false)
  = (probeEvents w args, Normal (usesXcpretty w args)).
Proof.
  unfold probeEvents, usesXcpretty, xcprettyProbe, xcprettyAvailable,
    do_execSync.
  destruct (verbose args); [reflexivity|].
  now destruct (execSync w (lit "xcpretty --version")).
Qed.

(** The events of a build, those of the [data] handlers left as they
    are. *)
Lemma buildProject_trace (w : World) (project : XcodeProject)
      (udid scheme : jsstring) (args : FlagsT) :
  trace (buildProject w project udid scheme args)
  = buildingNote project udid scheme args
    :: probeEvents w args
    ++ buildStart project udid scheme args
    :: trace (onData (usesXcpretty w args)
                (chunks (buildChild w project udid scheme args)) ([], []))
    ++ (if usesXcpretty w args then [StdinEnd] else []).
Proof.
  unfold buildProject. fold (buildChild w project udid scheme args).
  rewrite xcpretty_choice_eq.
  rewrite trace_bind. cbn [logger_info emit completion trace fst snd app].
  fold (buildingNote project udid scheme args). f_equal.
  rewrite trace_bind. cbn [completion trace fst snd]. f_equal.
  rewrite trace_bind. cbn [emit completion trace fst snd app].
  fold (buildStart project udid scheme args). f_equal.
  rewrite trace_bind, onData_completion. f_equal.
  unfold onClose. rewrite trace_bind.
  destruct (usesXcpretty w args);
    cbn [emit ret completion trace fst snd];
    destruct (nonZero (exitCode (buildChild w project udid scheme args)));
    reflexivity.
Qed.


Lemma onData_not_synchronous (xcpretty : bool) (cs : list Chunk)
      (acc : jsstring * jsstring) :
  filter isSynchronous (trace (onData xcpretty cs acc)) = [].
Proof.
  revert acc; induction cs as [|[data|data] cs IH]; intros acc;
    cbn [onData].
  - reflexivity.
  - rewrite trace_bind.
    assert (completion (if xcpretty then emit StdinWrite
                        else logger_info data) = Normal tt) as ->
      by now destruct xcpretty.
    rewrite filter_app, IH. now destruct xcpretty.
  - apply IH.
Qed.


Lemma buildProject_synchronous (w : World) (project : XcodeProject)
      (udid scheme : jsstring) (args : FlagsT) :
  filter isSynchronous (trace (buildProject w project udid scheme args))
  = if verbose args then [] else [ExecSync (lit "xcpretty --version")].
Proof.
  rewrite buildProject_trace. unfold buildingNote, buildStart.
  cbn [filter isSynchronous]. rewrite filter_app.
  cbn [filter isSynchronous]. rewrite filter_app, onData_not_synchronous.
  assert (Hend : filter isSynchronous
                        (if usesXcpretty w args then [StdinEnd] else [])
                 = []) by now destruct (usesXcpretty w args).
  rewrite Hend. cbn [app]. rewrite app_nil_r.
  unfold probeEvents. destruct (verbose args); [reflexivity|].
  now destruct (xcprettyProbe w).
Qed.

(** X7. The subprocesses that the device path runs synchronously are,
    in order, the probe [xcpretty --version] of the build, unless
    [--verbose] is given, and the installer.  The installer is run once,
    exactly when the build tool exited with 0: with the bundle of the
    resolved product name in the [iphoneos] directory of the build, the
    udid of the selected device, and the flag to launch.  A failed build
    leaves it out. *)
Theorem device_path_installs_once (w : World) (selectedDevice : Device)
        (scheme : jsstring) (project : XcodeProject) (args : FlagsT) :
  filter isSynchronous
         (trace (runOnDevice w selectedDevice scheme project args))
  = (if verbose args then [] else [ExecSync (lit "xcpretty --version")])
    ++ (if nonZero (exitCode (buildChild w project (udid selectedDevice)
                                scheme args))
        then []
        else [SpawnSync (lit "ios-deploy")
                [lit "--bundle";
                 getBuildPath (configuration args)
                   (productNameOr
                      (stdoutText
                         (chunks (buildChild w project (udid selectedDevice)
                                    scheme args)))
                      scheme)
                   true scheme;
                 lit "--id"; udid selectedDevice; lit "--justlaunch"]]).
Proof.
  unfold runOnDevice. rewrite trace_bind, buildProject_completion. cbv zeta.
  pose proof (buildProject_synchronous w project (udid selectedDevice)
                scheme args) as Hb.
  destruct (nonZero _); [now rewrite app_nil_r|].
  rewrite filter_app, Hb. f_equal.
  unfold installOnDevice, do_spawnSync, iosDeployInstallArgs.
  cbn [logger_info emit bind app].
  destruct (spawnSync w (lit "ios-deploy") _) as [r|e];
    cbn [ret throw bind app trace fst]; [|reflexivity].
  now destruct (error r).
Qed.

(** With xcpretty installed and [--verbose] off, a failed build on the
    device path still runs the probe, and only the probe. *)
Example device_path_failed_build :
  filter isSynchronous
         (trace (runOnDevice prettyFailingWorld iPhone8_13 (lit "MyApp")
                   sampleProject sampleFlags))
  = [ExecSync (lit "xcpretty --version")].
Proof. reflexivity. Qed.

(** ** The simulator path *)

(** X8. The simulator path gives up before it opens Simulator.app,
    boots or builds: when the inventory query throws, or when its output
    is not JSON, the run rejects with "Could not parse the simulator list
    output", whatever the exception was; when the inventory has no
    simulator of the wanted name it rejects with "Could not find <name>
    simulator".  In each case the query is the only subprocess run. *)
Theorem simulator_selection_errors (w : World) (project : XcodeProject)
        (scheme : jsstring) (args : FlagsT) :
  (forall e,
      execFileSync w (lit "xcrun") simctlListArgs = Throw e ->
      runOnSimulator w project scheme args
      = ([ExecFileSync (lit "xcrun") simctlListArgs], Throw parseError))
  /\ (forall out e,
         execFileSync w (lit "xcrun") simctlListArgs = Normal out ->
         JSON_parse w out = Throw e ->
         runOnSimulator w project scheme args
         = ([ExecFileSync (lit "xcrun") simctlListArgs], Throw parseError))
  /\ (forall out inventory,
         execFileSync w (lit "xcrun") simctlListArgs = Normal out ->
         JSON_parse w out = Normal inventory ->
         findMatchingSimulator w inventory (simulator args) = None ->
         runOnSimulator w project scheme args
         = ([ExecFileSync (lit "xcrun") simctlListArgs],
            Throw (simulatorNotFound args))).
Proof.
  unfold runOnSimulator, selectSimulator, readSimulators, do_execFileSync.
  split; [|split].
  - intros e H. rewrite H. reflexivity.
  - intros out e H Hp. rewrite H. cbn [emit bind app]. rewrite Hp.
    reflexivity.
  - intros out inventory H Hp Hf. rewrite H. cbn [emit bind app].
    rewrite Hp. cbn [bind]. rewrite Hf. reflexivity.
Qed.

Lemma simulator_selection_errors_witness :
  runOnSimulator noInventoryWorld sampleProject (lit "MyApp") sampleFlags
  = ([ExecFileSync (lit "xcrun") simctlListArgs], Throw parseError)
  /\ runOnSimulator badJsonWorld sampleProject (lit "MyApp") sampleFlags
     = ([ExecFileSync (lit "xcrun") simctlListArgs], Throw parseError)
  /\ runOnSimulator noSimulatorWorld sampleProject (lit "MyApp") sampleFlags
     = ([ExecFileSync (lit "xcrun") simctlListArgs],
        Throw (simulatorNotFound sampleFlags)).
Proof.
  split; [|split].
  - eapply (proj1 (simulator_selection_errors noInventoryWorld _ _ _)).
    reflexivity.
  - eapply (proj1 (proj2 (simulator_selection_errors badJsonWorld _ _ _)));
      reflexivity.
  - eapply (proj2 (proj2 (simulator_selection_errors noSimulatorWorld
                            _ _ _)))
      with (inventory := tt); reflexivity.
Defined.

Lemma boot_is_sync (ev : Event) : isSyncStep ev = false -> isBootStep ev = false.
Proof. destruct ev; simpl; congruence. Qed.

Lemma selectSimulator_no_boot (w : World) (args : FlagsT) :
  Forall (fun ev => isBootStep ev = false) (trace (selectSimulator w args)).
Proof.
  unfold selectSimulator, readSimulators, do_execFileSync.
  cbn [emit bind app].
  destruct (execFileSync w (lit "xcrun") simctlListArgs) as [out|e];
    [|repeat constructor].
  destruct (JSON_parse w out) as [inventory|e]; [|repeat constructor].
  cbn [bind].
  destruct (findMatchingSimulator w inventory (simulator args)) as [sim|];
    [|repeat constructor].
  cbn [emit bind app].
  destruct (execFileSync w (lit "xcode-select") [lit "-p"]) as [dir|e];
    [|repeat constructor].
  cbn [bind app].
  destruct (execFileSync w (lit "open") _) as [o|e]; repeat constructor.
Qed.

Lemma installAndLaunch_no_boot (w : World) (sim : Simulator)
      (appName scheme : jsstring) (args : FlagsT) :
  Forall (fun ev => isBootStep ev = false)
         (trace (installAndLaunch w sim appName scheme args)).
Proof.
  unfold installAndLaunch, do_spawnSync, do_execFileSync, installArgs,
    launchArgs.
  cbn [logger_info emit bind app].
  destruct (spawnSync w (lit "xcrun") _) as [r1|e]; cbn [ret throw bind app];
    [|repeat constructor].
  destruct (execFileSync w (lit "/usr/libexec/PlistBuddy") _) as [plist|e];
    cbn [bind app]; [|repeat constructor].
  destruct (spawnSync w (lit "xcrun") _) as [r2|e]; cbn [ret throw bind app];
    repeat constructor.
Qed.

(** X9. A simulator that is already booted is not booted again: when
    the chosen simulator is booted, the run goes from opening
    Simulator.app straight to the build, and no event of its trace
    starts [instruments], whatever happens afterwards. *)
Theorem booted_simulator_is_not_rebooted
        (w : World) (project : XcodeProject) (scheme : jsstring)
        (args : FlagsT) (sim : Simulator) :
  completion (selectSimulator w args) = Normal sim ->
  booted sim = true ->
  runOnSimulator w project scheme args
  = (trace (selectSimulator w args)
     ++ trace (appName <- buildProject w project (simUdid sim) scheme args ;;
               installAndLaunch w sim appName scheme args),
     completion
       (appName <- buildProject w project (simUdid sim) scheme args ;;
        installAndLaunch w sim appName scheme args))
  /\ Forall (fun ev => isBootStep ev = false)
            (trace (runOnSimulator w project scheme args)).
Proof.
  intros Hsel Hboot.
  assert (E : runOnSimulator w project scheme args
              = (trace (selectSimulator w args)
                 ++ trace (appName <- buildProject w project (simUdid sim)
                                                   scheme args ;;
                           installAndLaunch w sim appName scheme args),
                 completion
                   (appName <- buildProject w project (simUdid sim)
                                            scheme args ;;
                    installAndLaunch w sim appName scheme args))).
  { rewrite (runOnSimulator_from_build w project scheme args sim Hsel).
    unfold bootIfNeeded. rewrite Hboot. reflexivity. }
  split; [exact E|].
  rewrite E. cbn [trace fst].
  apply Forall_app. split; [apply selectSimulator_no_boot|].
  fold (trace (appName <- buildProject w project (simUdid sim) scheme args ;;
               installAndLaunch w sim appName scheme args)).
  rewrite trace_bind.
  assert (Hb : Forall (fun ev => isBootStep ev = false)
                      (trace (buildProject w project (simUdid sim)
                                scheme args))).
  { eapply Forall_impl; [|apply buildProject_no_sync].
    intros ev. apply boot_is_sync. }
  destruct (completion (buildProject w project (simUdid sim) scheme args));
    [|exact Hb].
  apply Forall_app. split; [exact Hb | apply installAndLaunch_no_boot].
Qed.

Lemma booted_simulator_is_not_rebooted_witness :
  Forall (fun ev => isBootStep ev = false)
         (trace (runOnSimulator bootedWorld sampleProject (lit "MyApp")
                   sampleFlags)).
Proof.
  apply (booted_simulator_is_not_rebooted bootedWorld sampleProject
           (lit "MyApp") sampleFlags bootedSimulator);
    reflexivity.
Defined.

(** ** The command as a whole *)

(** What [runIOS] does once the project is found and the devices are
    enumerated. *)
Lemma runIOS_after_prelude (w : World) (args : FlagsT)
      (files : list jsstring) (project : XcodeProject) (listing : jsstring) :
  fs_existsSync w (projectPath args) = true ->
  process_chdir w (projectPath args) = Normal tt ->
  fs_readdirSync w (lit ".") = Normal files ->
  findXcodeProject w files = Some project ->
  execFileSync w (lit "xcrun") [lit "instruments"; lit "-s"]
  = Normal listing ->
  forall rest : M unit,
    rest
    = (if flagTruthy (device args) || optTruthy (udidFlag args) then
         selectedDevice <- selectDevice (parseIOSDevicesList w listing)
                             (device args) (udidFlag args) ;;
         match selectedDevice with
         | Some selected =>
             runOnDevice w selected (schemeOf w args project) project args
         | None =>
             logger_error (notFoundReport (parseIOSDevicesList w listing)
                             (device args) (udidFlag args))
         end
       else runOnSimulator w project (schemeOf w args project) args) ->
    runIOS w args = (preludeEvents args project ++ trace rest, completion rest).
Proof.
  intros Hdir Hcd Hfiles Hproj Hlist rest Hrest.
  unfold runIOS. rewrite Hdir. cbn [negb].
  unfold do_chdir, do_readdirSync. rewrite Hcd, Hfiles.
  cbn [emit bind app]. rewrite Hproj.
  unfold do_execFileSync. rewrite Hlist.
  cbn [emit logger_info bind app]. fold (schemeOf w args project).
  rewrite <- Hrest. now destruct rest as [t c].
Qed.

(** X10. The command rejects before it does anything when the project
    folder does not exist.  When [process.chdir] or [fs.readdirSync]
    throws, for a path that is a regular file or a folder that cannot be
    listed, the run rejects with that exception right after the attempt
    to change into the folder.  When the folder is entered and listed but
    holds no Xcode project, the run rejects with "Could not find Xcode
    project files".  A failure of the device enumeration rejects the run
    as it is, before any selection, also when no device selector is
    given and the run would use a simulator. *)
Theorem runIOS_rejects_early (w : World) (args : FlagsT) :
  (fs_existsSync w (projectPath args) = false ->
   runIOS w args = ([], Throw folderNotFound))
  /\ (forall e,
         fs_existsSync w (projectPath args) = true ->
         process_chdir w (projectPath args) = Throw e ->
         runIOS w args = ([Chdir (projectPath args)], Throw e))
  /\ (forall e,
         fs_existsSync w (projectPath args) = true ->
         process_chdir w (projectPath args) = Normal tt ->
         fs_readdirSync w (lit ".") = Throw e ->
         runIOS w args = ([Chdir (projectPath args)], Throw e))
  /\ (forall files,
         fs_existsSync w (projectPath args) = true ->
         process_chdir w (projectPath args) = Normal tt ->
         fs_readdirSync w (lit ".") = Normal files ->
         findXcodeProject w files = None ->
         runIOS w args = ([Chdir (projectPath args)],
                          Throw (projectNotFound args)))
  /\ (forall files project e,
         fs_existsSync w (projectPath args) = true ->
         process_chdir w (projectPath args) = Normal tt ->
         fs_readdirSync w (lit ".") = Normal files ->
         findXcodeProject w files = Some project ->
         execFileSync w (lit "xcrun") [lit "instruments"; lit "-s"]
         = Throw e ->
         runIOS w args = (preludeEvents args project, Throw e)).
Proof.
  unfold runIOS, do_chdir, do_readdirSync.
  split; [|split; [|split; [|split]]].
  - intros H. rewrite H. reflexivity.
  - intros e H Hcd. rewrite H, Hcd. reflexivity.
  - intros e H Hcd Hf. rewrite H, Hcd, Hf. reflexivity.
  - intros files H Hcd Hf Hp. rewrite H, Hcd, Hf. cbn [negb emit bind app].
    rewrite Hp. reflexivity.
  - intros files project e H Hcd Hf Hp Hl. rewrite H, Hcd, Hf.
    cbn [negb emit bind app]. rewrite Hp.
    unfold do_execFileSync. rewrite Hl. reflexivity.
Qed.

Lemma runIOS_rejects_early_witness :
  runIOS noFolderWorld sampleFlags = ([], Throw folderNotFound)
  /\ runIOS fileNotFolderWorld sampleFlags
     = ([Chdir (lit "ios")], Throw notADirectory)
  /\ runIOS unreadableFolderWorld sampleFlags
     = ([Chdir (lit "ios")],
        Throw (NodeError (lit "EACCES: permission denied, scandir .")))
  /\ runIOS noProjectWorld sampleFlags
     = ([Chdir (lit "ios")], Throw (projectNotFound sampleFlags)).
Proof.
  split; [|split; [|split]].
  - apply (proj1 (runIOS_rejects_early noFolderWorld sampleFlags)).
    reflexivity.
  - apply (proj1 (proj2 (runIOS_rejects_early fileNotFolderWorld
                           sampleFlags))); reflexivity.
  - apply (proj1 (proj2 (proj2 (runIOS_rejects_early unreadableFolderWorld
                                  sampleFlags)))); reflexivity.
  - apply (proj1 (proj2 (proj2 (proj2 (runIOS_rejects_early noProjectWorld
                                         sampleFlags))))
             [lit "Podfile"]); reflexivity.
Defined.

(** X11. An empty string given for [--scheme], [--device] or [--udid]
    counts as no value at all: the run is the same as without the flag,
    so an empty scheme falls back to the name inferred from the project,
    and an empty device or udid selects nothing. *)
Theorem empty_flags_are_absent (w : World) (args : FlagsT) :
  runIOS w (withScheme args (Some [])) = runIOS w (withScheme args None)
  /\ runIOS w (withDevice args (FlagString []))
     = runIOS w (withDevice args FlagUndefined)
  /\ runIOS w (withUdid args (Some [])) = runIOS w (withUdid args None).
Proof.
  split; [|split].
  - reflexivity.
  - unfold runIOS, selectDevice, notFoundReport.
    cbn [withDevice projectPath scheme device udidFlag flagTruthy truthy].
    reflexivity.
  - unfold runIOS, selectDevice, notFoundReport.
    cbn [withUdid projectPath scheme device udidFlag optTruthy truthy].
    rewrite !orb_false_r.
    destruct (flagTruthy (device args)); reflexivity.
Qed.

(** X12. With no truthy device selector and no truthy udid, the command
    takes the simulator path with the scheme it settled on, whatever
    devices are connected: after the enumeration its events and its
    completion are those of [runOnSimulator]. *)
Theorem no_selector_runs_simulator (w : World) (args : FlagsT)
        (files : list jsstring) (project : XcodeProject)
        (listing : jsstring) :
  fs_existsSync w (projectPath args) = true ->
  process_chdir w (projectPath args) = Normal tt ->
  fs_readdirSync w (lit ".") = Normal files ->
  findXcodeProject w files = Some project ->
  execFileSync w (lit "xcrun") [lit "instruments"; lit "-s"]
  = Normal listing ->
  flagTruthy (device args) = false ->
  optTruthy (udidFlag args) = false ->
  runIOS w args
  = (preludeEvents args project
     ++ trace (runOnSimulator w project (schemeOf w args project) args),
     completion (runOnSimulator w project (schemeOf w args project) args)).
Proof.
  intros Hdir Hcd Hfiles Hproj Hlist Hd Hu.
  apply (runIOS_after_prelude w args files project listing Hdir Hcd Hfiles
           Hproj Hlist).
  now rewrite Hd, Hu.
Qed.

Lemma no_selector_runs_simulator_witness :
  runIOS (sampleWorld twoPhones) sampleFlags
  = (preludeEvents sampleFlags sampleProject
     ++ trace (runOnSimulator (sampleWorld twoPhones) sampleProject
                 (lit "MyApp") sampleFlags),
     Normal tt).
Proof.
  rewrite (no_selector_runs_simulator (sampleWorld twoPhones) sampleFlags
             [lit "MyApp.xcodeproj"] sampleProject
             (lit "/Applications/Xcode.app/Contents/Developer" ++ [10%N])
             eq_refl eq_refl eq_refl eq_refl eq_refl eq_refl eq_refl).
  reflexivity.
Defined.

(** X13. When a selector picks a device, the command builds for that
    device and nothing of the simulator path runs: after the enumeration
    and the selection, its events and its completion are those of
    [runOnDevice] on the selected device, and the build tool is started
    with the destination [id=<udid of the selected device>], which for a
    udid selector is the udid asked for. *)
Theorem selected_device_is_built_for
        (w : World) (args : FlagsT) (files : list jsstring)
        (project : XcodeProject) (listing : jsstring) (d : Device) :
  fs_existsSync w (projectPath args) = true ->
  process_chdir w (projectPath args) = Normal tt ->
  fs_readdirSync w (lit ".") = Normal files ->
  findXcodeProject w files = Some project ->
  execFileSync w (lit "xcrun") [lit "instruments"; lit "-s"]
  = Normal listing ->
  flagTruthy (device args) || optTruthy (udidFlag args) = true ->
  completion (selectDevice (parseIOSDevicesList w listing) (device args)
                (udidFlag args)) = Normal (Some d) ->
  runIOS w args
  = (preludeEvents args project
     ++ trace (selectDevice (parseIOSDevicesList w listing) (device args)
                 (udidFlag args))
     ++ trace (runOnDevice w d (schemeOf w args project) project args),
     completion (runOnDevice w d (schemeOf w args project) project args))
  /\ In (buildStart project (udid d) (schemeOf w args project) args)
        (trace (runIOS w args))
  /\ In (lit "id=" ++ udid d)
        (xcodebuildArgs project (udid d) (schemeOf w args project) args)
  /\ (flagTruthy (device args) = false -> udidFlag args = Some (udid d)).
Proof.
  intros Hdir Hcd Hfiles Hproj Hlist Hsel Hd.
  assert (E : runIOS w args
              = (preludeEvents args project
                 ++ trace (selectDevice (parseIOSDevicesList w listing)
                             (device args) (udidFlag args))
                 ++ trace (runOnDevice w d (schemeOf w args project)
                             project args),
                 completion (runOnDevice w d (schemeOf w args project)
                               project args))).
  { rewrite (runIOS_after_prelude w args files project listing Hdir Hcd
               Hfiles Hproj Hlist _ eq_refl).
    rewrite Hsel. now rewrite (bind_normal _ _ (Some d) Hd). }
  split; [exact E|]. split; [|split].
  - rewrite E. cbn [trace fst].
    apply in_or_app. right. apply in_or_app. right.
    unfold runOnDevice. apply in_trace_bind, buildProject_starts.
  - unfold xcodebuildArgs. simpl. tauto.
  - intros Hf. unfold selectDevice in Hd. rewrite Hf in Hd.
    cbn [completion ret snd] in Hd. injection Hd as Hd.
    unfold matchingDeviceByUdid in Hd. apply scanDown_member in Hd.
    destruct Hd as [_ Ht].
    destruct (udidFlag args) as [u|]; [|discriminate].
    apply eqOpt_some in Ht. now rewrite Ht.
Qed.

Lemma selected_device_is_built_for_witness :
  In (buildStart sampleProject (lit "AAAA-1") (lit "MyApp") wantUdid)
     (trace (runIOS (sampleWorld twoPhones) wantUdid)).
Proof.
  apply (selected_device_is_built_for (sampleWorld twoPhones) wantUdid
           [lit "MyApp.xcodeproj"] sampleProject
           (lit "/Applications/Xcode.app/Contents/Developer" ++ [10%N])
           iPhone8_12 eq_refl eq_refl eq_refl eq_refl eq_refl eq_refl
           eq_refl).
Defined.
